(** * A shallow embedding of the fx playground HTTP server (main.go)

    The program wires two request handlers (echo and hello) into an
    [http.ServeMux] and ties an [http.Server] to the application
    lifecycle.  The handlers, the route registration and the lifecycle
    hooks are embedded from main.go.  The Go packages they call (io, fmt,
    net, net/http, zap, fx) are embedded as small executable models that
    follow the packages' documented behaviour; each model says which part
    of the package it covers. *)

From stdpp Require Import gmap strings list fin_maps.
From Stdlib Require Import Strings.Ascii Strings.Byte.

Local Open Scope string_scope.
Local Open Scope nat_scope.
Local Open Scope list_scope.

(** Go's [[]byte] and the bytes of a Go string literal. *)
Abbreviation bytes := (list byte).

Definition bytes_of (s : string) : bytes := String.list_byte_of_string s.

(** The line feed a Go string literal writes as a backslash followed by [n]. *)
Definition LF : byte := x0a.

(** [line s]: the bytes of the Go literal [s] followed by a line feed. *)
Definition line (s : string) : bytes := bytes_of s ++ [LF].

(** ** Go [error] values the program can observe *)

Inductive error : Type :=
| EOF                        (* io.EOF *)
| ErrShortWrite              (* io.ErrShortWrite *)
| ErrServerClosed            (* http.ErrServerClosed *)
| DeadlineExceeded           (* context.DeadlineExceeded *)
| Errno (msg : string).      (* an error of the operating system or the peer *)

#[global] Instance error_eq_dec : EqDecision error.
Proof. solve_decision. Defined.

Definition EPIPE : error := Errno "write: broken pipe".
Definition EADDRINUSE : error := Errno "bind: address already in use".

(** ** zap: a structured logger

    The logger appends entries to a sink; the sink is part of the state
    the handlers and hooks run in. *)
Module zap.

Inductive Level := DebugLevel | InfoLevel | WarnLevel | ErrorLevel.

#[global] Instance Level_eq_dec : EqDecision Level.
Proof. solve_decision. Defined.

Inductive Field :=
| Error (err : error)                   (* zap.Error(err) *)
| String (key : string) (val : string). (* zap.String(key, val) *)

Record Logger := { LoggerName : string }.

Record Entry := {
  EntryLevel : Level;
  EntryLogger : string;
  Message : string;
  Fields : list Field
}.

Definition NewExample : Logger := {| LoggerName := "" |}.

Definition write (l : Logger) (lvl : Level) (msg : string)
    (fs : list Field) (sink : list Entry) : list Entry :=
  sink ++ [ {| EntryLevel := lvl; EntryLogger := LoggerName l;
               Message := msg; Fields := fs |} ].

End zap.

(** ** io: readers

    An [io.Reader] is modelled by the results its successive [Read]
    calls will return: each call hands out a chunk of data together with
    an optional error.  A reader whose script is used up reports
    [(0, EOF)], as a request body does once it has been drained. *)
Module io.

Definition Reader := list (bytes * option error).

Definition Read (r : Reader) : (bytes * option error) * Reader :=
  match r with
  | [] => (([], Some EOF), [])
  | ev :: r' => (ev, r')
  end.

(** [io.ReadAll]: read until an error or EOF and return the data read;
    EOF is not reported as an error. *)
Fixpoint ReadAll_loop (r : Reader) (b : bytes)
    : (bytes * option error) * Reader :=
  match r with
  | [] => ((b, None), [])
  | (p, err) :: r' =>
      let b := b ++ p in
      match err with
      | None => ReadAll_loop r' b
      | Some e => ((b, if decide (e = EOF) then None else Some e), r')
      end
  end.

Definition ReadAll (r : Reader) : (bytes * option error) * Reader :=
  ReadAll_loop r [].

(** [Delivers r B]: every read of [r] succeeds and the reader hands out
    exactly the byte sequence [B] before it reports EOF. *)
Inductive Delivers : Reader -> bytes -> Prop :=
| Delivers_end : Delivers [] []
| Delivers_eof p r : Delivers ((p, Some EOF) :: r) p
| Delivers_chunk p r B :
    Delivers r B -> Delivers ((p, None) :: r) (p ++ B).

(** [Fails r e rest]: the reads of [r] succeed up to one that reports
    the error [e], which is not EOF; [rest] is what the reader would
    hand out if it were read again after the failure. *)
Inductive Fails : Reader -> error -> Reader -> Prop :=
| Fails_here p e rest : e <> EOF -> Fails ((p, Some e) :: rest) e rest
| Fails_later p r e rest :
    Fails r e rest -> Fails ((p, None) :: r) e rest.

(** The reader that hands out the given chunks and then EOF. *)
Definition of_chunks (chunks : list bytes) : Reader :=
  map (fun p => (p, None)) chunks.

End io.

(** ** net/http: the response writer

    [status] is the status line once the header has been written,
    [room] the number of bytes the client connection still accepts
    ([None]: the connection stays healthy).  A write that exceeds the
    room is cut short and reports an error, and so does every later
    one. *)
Module http.

Definition StatusOK : nat := 200.
Definition StatusBadRequest : nat := 400.
Definition StatusNotFound : nat := 404.
Definition StatusInternalServerError : nat := 500.

Record ResponseWriter := {
  status : option nat;
  Header : gmap string string;
  body : bytes;
  room : option nat
}.

(** The writer a handler receives: nothing written yet. *)
Definition fresh (room : option nat) : ResponseWriter :=
  {| status := None; Header := ∅; body := []; room := room |}.

Definition Set_ (k v : string) (w : ResponseWriter) : ResponseWriter :=
  {| status := status w; Header := <[k := v]> (Header w);
     body := body w; room := room w |}.

(** [WriteHeader]: the first call fixes the status; a later call is
    superfluous and is ignored. *)
Definition WriteHeader (code : nat) (w : ResponseWriter) : ResponseWriter :=
  match status w with
  | Some _ => w
  | None => {| status := Some code; Header := Header w;
               body := body w; room := room w |}
  end.

(** [Write]: writes the header with status 200 if it has not been
    written, then sends the data. *)
Definition Write (p : bytes) (w : ResponseWriter)
    : (nat * option error) * ResponseWriter :=
  let w := WriteHeader StatusOK w in
  match room w with
  | None =>
      ((length p, None),
       {| status := status w; Header := Header w;
          body := body w ++ p; room := None |})
  | Some k =>
      if decide (length p <= k) then
        ((length p, None),
         {| status := status w; Header := Header w;
            body := body w ++ p; room := Some (k - length p) |})
      else
        ((k, Some EPIPE),
         {| status := status w; Header := Header w;
            body := body w ++ take k p; room := Some 0 |})
  end.

(** [accepts w n]: the connection behind [w] takes [n] more bytes. *)
Definition accepts (w : ResponseWriter) (n : nat) : Prop :=
  match room w with None => True | Some k => n <= k end.

#[global] Instance accepts_dec w n : Decision (accepts w n).
Proof. unfold accepts. destruct (room w); apply _. Defined.

(** What a connection with the given room lets through of [p]. *)
Definition clip (room : option nat) (p : bytes) : bytes :=
  match room with None => p | Some k => take k p end.

(** A request without its body: the method, the path of the request
    target, whether the protocol is HTTP/1.1 or later, and whether the
    connection is to be closed after the reply ([r.Close]).  The request
    target "*" gives the path "*", and no other target does. *)
Record Request := {
  Method : string;
  Path : string;
  Proto11 : bool;
  Close : bool
}.

End http.

(** ** fmt: the fragment of [Sprintf] the program uses

    Operands are byte slices.  [%s] prints the operand's bytes as they
    are, [%%] prints a percent sign, a missing operand and a lone [%] at
    the end print Go's markers.  Other verbs do not occur in the program
    and are copied through. *)
Module fmt.

Definition percent : byte := "%"%byte.
Definition verb_s : byte := "s"%byte.

Fixpoint Sprintf (format : bytes) (a : list bytes) : bytes :=
  match format with
  | [] => []
  | c :: rest =>
      if Byte.eqb c percent then
        match rest with
        | [] => bytes_of "%!(NOVERB)"
        | v :: rest' =>
            if Byte.eqb v verb_s then
              match a with
              | [] => bytes_of "%!s(MISSING)" ++ Sprintf rest' []
              | x :: a' => x ++ Sprintf rest' a'
              end
            else if Byte.eqb v percent then percent :: Sprintf rest' a
            else c :: v :: Sprintf rest' a
        end
      else c :: Sprintf rest a
  end.

End fmt.

(** ** The state a handler runs in

    A handler reads the request body, writes to the response writer and
    logs.  The three are threaded through the handler by a small state
    monad. *)
Record Exchange := {
  rw : http.ResponseWriter;    (* w http.ResponseWriter *)
  rbody : io.Reader;           (* r.Body *)
  sink : list zap.Entry        (* what the logger has written *)
}.

Definition M (A : Type) : Type := Exchange -> A * Exchange.

#[global] Instance M_ret : MRet M := fun A a s => (a, s).

#[global] Instance M_bind : MBind M :=
  fun A B k m s => let '(a, s') := m s in k a s'.

(** Lifting a function on the response writer, and one on the logger's
    sink, to the handler's state. *)
Definition on_writer {A} (f : http.ResponseWriter -> A * http.ResponseWriter)
    : M A :=
  fun s => let '(a, w) := f (rw s) in
           (a, {| rw := w; rbody := rbody s; sink := sink s |}).

Definition on_sink (f : list zap.Entry -> list zap.Entry) : M unit :=
  fun s => (tt, {| rw := rw s; rbody := rbody s; sink := f (sink s) |}).

Definition Warn (l : zap.Logger) (msg : string) (fs : list zap.Field) : M unit :=
  on_sink (zap.write l zap.WarnLevel msg fs).

Definition Error (l : zap.Logger) (msg : string) (fs : list zap.Field) : M unit :=
  on_sink (zap.write l zap.ErrorLevel msg fs).

(** [io.Copy(w, r.Body)]: read chunk after chunk and write each one,
    until the reader reports EOF or an error, or a write fails.  Returns
    the number of bytes written and the first error met, EOF excepted. *)
Fixpoint Copy_loop (src : io.Reader) (dst : http.ResponseWriter) (written : nat)
    : (nat * option error) * (http.ResponseWriter * io.Reader) :=
  match src with
  | [] => ((written, None), (dst, []))
  | (p, er) :: src' =>
      let '((nw, ew), dst') :=
        if decide (0 < length p) then http.Write p dst
        else ((0, None), dst) in
      let written := written + nw in
      match ew with
      | Some e => ((written, Some e), (dst', src'))
      | None =>
          if decide (length p = nw) then
            match er with
            | Some e =>
                ((written, if decide (e = EOF) then None else Some e),
                 (dst', src'))
            | None => Copy_loop src' dst' written
            end
          else ((written, Some ErrShortWrite), (dst', src'))
      end
  end.

Definition io_Copy : M (nat * option error) :=
  fun s =>
    let '(res, (w, r)) := Copy_loop (rbody s) (rw s) 0 in
    (res, {| rw := w; rbody := r; sink := sink s |}).

Definition io_ReadAll : M (bytes * option error) :=
  fun s =>
    let '(res, r) := io.ReadAll (rbody s) in
    (res, {| rw := rw s; rbody := r; sink := sink s |}).

(** [fmt.Fprintf(w, format, a...)]: format, then one [Write]. *)
Definition Fprintf (format : bytes) (a : list bytes) : M (nat * option error) :=
  on_writer (http.Write (fmt.Sprintf format a)).

(** [fmt.Fprintln(w, s)]. *)
Definition Fprintln (s : string) : M (nat * option error) :=
  on_writer (http.Write (line s)).

(** [http.Error(w, error, code)]: sets the plain-text headers, writes the
    header with the given code and prints the message as one line. *)
Definition http_Error (msg : string) (code : nat) : M unit :=
  on_writer (fun w => (tt, http.Set_ "Content-Type" "text/plain; charset=utf-8" w)) ;;
  on_writer (fun w => (tt, http.Set_ "X-Content-Type-Options" "nosniff" w)) ;;
  on_writer (fun w => (tt, http.WriteHeader code w)) ;;
  _ ← Fprintln msg;
  mret tt.

(** ** The handlers of main.go *)

Record EchoHandler := { echo_log : zap.Logger }.
Record HelloHandler := { hello_log : zap.Logger }.

Definition NewHelloHandler (log : zap.Logger) : HelloHandler :=
  {| hello_log := log |}.

Definition NewEchoHandler (log : zap.Logger) : EchoHandler :=
  {| echo_log := log |}.

Definition hello_format : bytes := line "Hello, %s".

Module Echo.

Definition Pattern (_ : EchoHandler) : string := "/echo".

Definition ServeHTTP (h : EchoHandler) (r : http.Request) : M unit :=
  '(_, err) ← io_Copy;
  match err with
  | Some e => Warn (echo_log h) "Failed to handle request" [zap.Error e]
  | None => mret tt
  end.

End Echo.

Module Hello.

Definition Pattern (_ : HelloHandler) : string := "/hello".

Definition ServeHTTP (h : HelloHandler) (r : http.Request) : M unit :=
  '(body, err) ← io_ReadAll;
  match err with
  | Some e =>
      Error (hello_log h) "Failed to read request" [zap.Error e] ;;
      http_Error "Internal server error" http.StatusInternalServerError
  | None =>
      '(_, err) ← Fprintf hello_format [body];
      match err with
      | Some e =>
          Error (hello_log h) "Failed to write response" [zap.Error e] ;;
          http_Error "Internal server error" http.StatusInternalServerError
      | None => mret tt
      end
  end.

End Hello.

(** The [Route] interface: an [http.Handler] with a [Pattern] method.
    Its values are the handlers of the two types that implement it. *)
Inductive Route : Type :=
| EchoRoute (h : EchoHandler)
| HelloRoute (h : HelloHandler).

Definition Pattern (route : Route) : string :=
  match route with
  | EchoRoute h => Echo.Pattern h
  | HelloRoute h => Hello.Pattern h
  end.

Definition ServeHTTP (route : Route) (r : http.Request) : M unit :=
  match route with
  | EchoRoute h => Echo.ServeHTTP h r
  | HelloRoute h => Hello.ServeHTTP h r
  end.

(** [fx.As(new(Route))]: a handler type that implements [Route] is
    provided as a [Route]. *)
Class ImplementsRoute (H : Type) := as_Route : H -> Route.

#[global] Instance Echo_implements : ImplementsRoute EchoHandler := EchoRoute.
#[global] Instance Hello_implements : ImplementsRoute HelloHandler := HelloRoute.

Definition AsRoute {H} `{ImplementsRoute H} (f : zap.Logger -> H)
    : zap.Logger -> Route :=
  fun log => as_Route (f log).

(** ** Results of code that may panic *)

Inductive result (A : Type) : Type :=
| Ok (a : A)
| Panic (msg : string).

Arguments Ok {A} a.
Arguments Panic {A} msg.

#[global] Instance result_ret : MRet result := fun A a => Ok a.

#[global] Instance result_bind : MBind result :=
  fun A B k m => match m with Ok a => k a | Panic msg => Panic msg end.

(** ** path: [Clean]

    [Clean] returns the shortest path equivalent to the given one, path
    element by path element: empty elements (repeated slashes) and "."
    elements are dropped, a ".." element removes the element before it,
    a ".." element at the start of a rooted path is dropped, and one
    that a relative path cannot resolve is kept.  The result ends in a
    slash only when it is the root; the empty path gives ".". *)
Module path.

Definition slash : ascii := "/"%char.

Definition dot : list ascii := ["."%char].

Definition dotdot : list ascii := ["."%char; "."%char].

(** The path elements: the pieces between the slashes. *)
Fixpoint elements (s : list ascii) (cur : list ascii) : list (list ascii) :=
  match s with
  | [] => [cur]
  | c :: s' =>
      if decide (c = slash) then cur :: elements s' []
      else elements s' (cur ++ [c])
  end.

(** One path element is added to the elements kept so far. *)
Definition resolve (rooted : bool) (kept : list (list ascii))
    (el : list ascii) : list (list ascii) :=
  if decide (el = []) then kept
  else if decide (el = dot) then kept
  else if decide (el = dotdot) then
    match last kept with
    | Some top =>
        if decide (top = dotdot) then kept ++ [el]
        else take (length kept - 1) kept
    | None => if rooted then kept else kept ++ [el]
    end
  else kept ++ [el].

Fixpoint join (els : list (list ascii)) : list ascii :=
  match els with
  | [] => []
  | [el] => el
  | el :: els' => el ++ slash :: join els'
  end.

Definition Clean (p : string) : string :=
  match String.list_ascii_of_string p with
  | [] => "."
  | c :: _ =>
      let rooted := bool_decide (c = slash) in
      let kept := foldl (resolve rooted) []
                    (elements (String.list_ascii_of_string p) []) in
      if rooted then String.string_of_list_ascii (slash :: join kept)
      else match kept with
           | [] => "."
           | _ :: _ => String.string_of_list_ascii (join kept)
           end
  end.

End path.

(** ** net/http: the request multiplexer

    [m] maps a pattern to its entry; [es] holds the entries whose pattern
    ends in a slash, longest pattern first.  [Handle] panics on an empty
    pattern and on a pattern that is already registered.  A request
    whose path is not in canonical form is redirected to the canonical
    path, except for CONNECT requests.  Host-specific patterns are not
    modelled (the program registers none), nor is the escaping of the
    redirect target. *)
Module mux.

Record muxEntry := { h : Route; pattern : string }.

Record ServeMux := {
  m : gmap string muxEntry;
  es : list muxEntry
}.

Definition NewServeMux : ServeMux := {| m := ∅; es := [] |}.

Definition ends_in_slash (s : string) : bool :=
  match last (String.list_ascii_of_string s) with
  | Some c => bool_decide (c = "/"%char)
  | None => false
  end.

(** Insert before the first entry with a strictly shorter pattern. *)
Fixpoint appendSorted (es : list muxEntry) (e : muxEntry) : list muxEntry :=
  match es with
  | [] => [e]
  | e' :: es' =>
      if decide (String.length (pattern e') < String.length (pattern e))
      then e :: es
      else e' :: appendSorted es' e
  end.

Definition Handle (pat : string) (handler : Route) (mx : ServeMux)
    : result ServeMux :=
  if decide (pat = "") then Panic "http: invalid pattern"
  else match m mx !! pat with
       | Some _ => Panic ("http: multiple registrations for " +:+ pat)
       | None =>
           let e := {| h := handler; pattern := pat |} in
           Ok {| m := <[pat := e]> (m mx);
                 es := if ends_in_slash pat then appendSorted (es mx) e
                       else es mx |}
       end.

(** [match]: an exact match first, then the longest registered subtree
    pattern that is a prefix of the path. *)
Definition match_ (path : string) (mx : ServeMux) : option muxEntry :=
  match m mx !! path with
  | Some v => Some v
  | None => find (fun e => String.prefix (pattern e) path) (es mx)
  end.

(** What the multiplexer does with a request path. *)
Inductive Target :=
| Serve (e : muxEntry)
| Redirect (url : string)     (* moved permanently to this path *)
| NotFound.

(** [cleanPath]: the canonical form of a request path.  It begins with
    a slash, has no "." or ".." element and no repeated slash, and keeps
    a trailing slash. *)
Definition cleanPath (p : string) : string :=
  match p with
  | EmptyString => "/"
  | String c _ =>
      let p := if decide (c = path.slash) then p else "/" +:+ p in
      let np := path.Clean p in
      if ends_in_slash p && negb (bool_decide (np = "/")) then np +:+ "/"
      else np
  end.

(** [mux.handler]: the entry that matches the path as it is, if any. *)
Definition handler (path : string) (mx : ServeMux) : Target :=
  match match_ path mx with
  | Some e => Serve e
  | None => NotFound
  end.

(** Whether a request for [path] is redirected to [path] with a slash
    appended: [path] is not registered, the longer pattern is, and
    [path] does not end in a slash already. *)
Definition shouldRedirect (path : string) (mx : ServeMux) : bool :=
  match m mx !! path with
  | Some _ => false
  | None =>
      if decide (path = "") then false
      else match m mx !! (path +:+ "/") with
           | Some _ => negb (ends_in_slash path)
           | None => false
           end
  end.

(** [Handler] for a request that is not a CONNECT request: the path is
    brought into canonical form; a request for a path that is not
    registered while the path with a slash appended is, is redirected
    there; a request whose path was not canonical is redirected to the
    canonical path; any other request goes to the matching entry. *)
Definition Handler (path : string) (mx : ServeMux) : Target :=
  let p := cleanPath path in
  if shouldRedirect p mx then Redirect (p +:+ "/")
  else if decide (p = path) then handler path mx
  else Redirect p.

(** [Handler] for a CONNECT request: its path is taken as it is. *)
Definition Handler_CONNECT (path : string) (mx : ServeMux) : Target :=
  if shouldRedirect path mx then Redirect (path +:+ "/")
  else handler path mx.

End mux.

(** [http.NotFound] and [http.Redirect] as handlers.  Of a redirect the
    status and the [Location] header are modelled; the short HTML body a
    GET request gets with it is not. *)
Definition http_NotFound : M unit :=
  http_Error "404 page not found" http.StatusNotFound.

Definition http_Redirect (url : string) : M unit :=
  on_writer (fun w => (tt, http.Set_ "Location" url w)) ;;
  on_writer (fun w => (tt, http.WriteHeader 301 w)).

(** [ServeMux.ServeHTTP]: a request for the target "*" is answered
    with status 400; any other request is dispatched to the handler
    whose pattern matches its path. *)
Definition ServeMux_ServeHTTP (mx : mux.ServeMux) (r : http.Request) : M unit :=
  if decide (http.Path r = "*") then
    (if http.Proto11 r
     then on_writer (fun w => (tt, http.Set_ "Connection" "close" w))
     else mret tt) ;;
    on_writer (fun w => (tt, http.WriteHeader http.StatusBadRequest w))
  else
    match (if decide (http.Method r = "CONNECT")
           then mux.Handler_CONNECT (http.Path r) mx
           else mux.Handler (http.Path r) mx) with
    | mux.Serve e => ServeHTTP (mux.h e) r
    | mux.Redirect url => http_Redirect url
    | mux.NotFound => http_NotFound
    end.

(** [NewServeMux] of main.go: register every route under its pattern. *)
Fixpoint register (routes : list Route) (mx : mux.ServeMux)
    : result mux.ServeMux :=
  match routes with
  | [] => Ok mx
  | route :: routes' =>
      mx' ← mux.Handle (Pattern route) route mx;
      register routes' mx'
  end.

Definition NewServeMux (routes : list Route) : result mux.ServeMux :=
  register routes mux.NewServeMux.

(** ** context, net and the server of net/http

    Time is counted in ticks.  A context is done once its deadline has
    run out.  An open connection is busy for the ticks of work it still
    has; when they are spent, the request the connection carries, if it
    carries one, is handled and answered.  A connection with no work
    left and no request is idle. *)
Record Context := { deadline : nat }.

Record Listener := { laddr : string }.

Record Conn := {
  work : nat;
  inflight : option (http.Request * io.Reader * option nat)
}.

Record Server := {
  Addr : string;
  Handler : mux.ServeMux;
  listeners : list Listener;   (* the listeners [Serve] is accepting on *)
  conns : list Conn;           (* open connections *)
  inShutdown : bool
}.

(** A goroutine that has been spawned and has not run yet. *)
Inductive Task :=
| Serve_task (ln : Listener).  (* go srv.Serve(ln) *)

(** The state the lifecycle hooks run in: the server object the hooks'
    closures point to, the addresses with a listening socket, the calls
    of [net.Listen] made so far, the logger's sink, the spawned
    goroutines and the responses sent. *)
Record World := {
  srv : Server;
  bound : gset string;
  listens : list (string * string);
  zlog : list zap.Entry;
  goroutines : list Task;
  responses : list http.ResponseWriter
}.

Definition with_srv (f : Server -> Server) (w : World) : World :=
  {| srv := f (srv w); bound := bound w; listens := listens w;
     zlog := zlog w; goroutines := goroutines w; responses := responses w |}.

(** [net.Listen(network, address)]: fails when the address is taken. *)
Definition net_Listen (network address : string) (w : World)
    : (Listener + error) * World :=
  let w' := {| srv := srv w; bound := bound w;
               listens := listens w ++ [(network, address)];
               zlog := zlog w; goroutines := goroutines w;
               responses := responses w |} in
  if decide (address ∈ bound w) then (inr EADDRINUSE, w')
  else (inl {| laddr := address |},
        {| srv := srv w'; bound := {[address]} ∪ bound w';
           listens := listens w'; zlog := zlog w';
           goroutines := goroutines w'; responses := responses w' |}).

Definition Listener_Close (ln : Listener) (w : World) : World :=
  {| srv := srv w; bound := bound w ∖ {[laddr ln]}; listens := listens w;
     zlog := zlog w; goroutines := goroutines w; responses := responses w |}.

Definition Info (l : zap.Logger) (msg : string) (fs : list zap.Field)
    (w : World) : World :=
  {| srv := srv w; bound := bound w; listens := listens w;
     zlog := zap.write l zap.InfoLevel msg fs (zlog w);
     goroutines := goroutines w; responses := responses w |}.

(** The [go] statement: the task is spawned, not run. *)
Definition go (t : Task) (w : World) : World :=
  {| srv := srv w; bound := bound w; listens := listens w; zlog := zlog w;
     goroutines := goroutines w ++ [t]; responses := responses w |}.

(** [srv.Serve(ln)] up to its accept loop: a server that is shutting
    down closes the listener and returns [ErrServerClosed]; otherwise the
    listener is tracked and connections are accepted on it. *)
Definition Server_Serve (ln : Listener) (w : World) : option error * World :=
  if inShutdown (srv w) then (Some ErrServerClosed, Listener_Close ln w)
  else
    (None,
     with_srv (fun s => {| Addr := Addr s; Handler := Handler s;
                           listeners := ln :: listeners s;
                           conns := conns s; inShutdown := inShutdown s |}) w).

Definition set_conns (cs : list Conn) (w : World) : World :=
  with_srv (fun s => {| Addr := Addr s; Handler := Handler s;
                        listeners := listeners s; conns := cs;
                        inShutdown := inShutdown s |}) w.

(** A connection with the given ticks of work on which no request gets
    complete: the client is busy sending and then leaves the connection
    idle. *)
Definition add_conn (c : nat) (w : World) : World :=
  set_conns ({| work := c; inflight := None |} :: conns (srv w)) w.

(** The server handles one request: the multiplexer picks the handler,
    the handler runs, and the header is written with status 200 if the
    handler has not written it.  For a HEAD request the writer the
    handler gets takes every write and sends none of the body.  The
    result says whether the connection is kept open: it is not when the
    request asks for it to be closed, when the server is shutting down,
    or when the client connection takes no more bytes. *)
Definition respond (r : http.Request) (b : io.Reader) (room : option nat)
    (w : World) : bool * World :=
  let head := bool_decide (http.Method r = "HEAD") in
  let '(_, x) := ServeMux_ServeHTTP (Handler (srv w)) r
                   {| rw := http.fresh (if head then None else room);
                      rbody := b; sink := zlog w |} in
  let sent := http.WriteHeader http.StatusOK (rw x) in
  let left := if head then room else http.room sent in
  (negb (http.Close r) && negb (inShutdown (srv w))
   && negb (bool_decide (left = Some 0)),
   {| srv := srv w; bound := bound w; listens := listens w;
      zlog := sink x; goroutines := goroutines w;
      responses :=
        responses w ++
        [ if head
          then {| http.status := http.status sent;
                  http.Header := http.Header sent;
                  http.body := []; http.room := room |}
          else sent ] |}).

(** One tick of time on the open connections: a busy connection has one
    tick of work less; a connection whose work is spent and that carries
    a request has the request handled and answered, after which it is
    idle or closed; an idle connection stays as it is. *)
Fixpoint tick_conns (cs : list Conn) (w : World) : list Conn * World :=
  match cs with
  | [] => ([], w)
  | c :: cs' =>
      match work c, inflight c with
      | S n, q =>
          let '(cs'', w') := tick_conns cs' w in
          ({| work := n; inflight := q |} :: cs'', w')
      | 0, None =>
          let '(cs'', w') := tick_conns cs' w in
          (c :: cs'', w')
      | 0, Some (r, b, room) =>
          let '(keep, w1) := respond r b room w in
          let '(cs'', w') := tick_conns cs' w1 in
          (if keep then {| work := 0; inflight := None |} :: cs'' else cs'',
           w')
      end
  end.

Definition tick (w : World) : World :=
  let '(cs, w') := tick_conns (conns (srv w)) w in
  set_conns cs w'.

(** The polling loop of [Shutdown]: idle connections are closed; when
    no connection is left the shutdown is complete; when the context is
    done first its error is returned and the busy connections stay
    open.  While [Shutdown] waits, the busy connections go on with their
    work. *)
Fixpoint drain (ticks : nat) (w : World) : option error * World :=
  let w := set_conns (filter (fun c => 0 < work c \/ is_Some (inflight c))
                        (conns (srv w))) w in
  match conns (srv w) with
  | [] => (None, w)
  | _ :: _ =>
      match ticks with
      | 0 => (Some DeadlineExceeded, w)
      | S ticks' => drain ticks' (tick w)
      end
  end.

(** [srv.Shutdown(ctx)]: mark the server as shutting down, close its
    listeners, then wait for the connections. *)
Definition Server_Shutdown (ctx : Context) (w : World) : option error * World :=
  let w1 := foldr Listener_Close w (listeners (srv w)) in
  drain (deadline ctx)
    (with_srv (fun s => {| Addr := Addr s; Handler := Handler s;
                           listeners := []; conns := conns s;
                           inShutdown := true |}) w1).

(** ** fx: lifecycle hooks *)
Module fx.

Record Hook := {
  OnStart : Context -> World -> option error * World;
  OnStop : Context -> World -> option error * World
}.

Definition Lifecycle := list Hook.

Definition Append (lc : Lifecycle) (hk : Hook) : Lifecycle := lc ++ [hk].

(** Start hooks run in the order they were appended; the first error
    aborts the start. *)
Fixpoint Start (lc : Lifecycle) (ctx : Context) (w : World)
    : option error * World :=
  match lc with
  | [] => (None, w)
  | hk :: lc' =>
      match OnStart hk ctx w with
      | (Some e, w') => (Some e, w')
      | (None, w') => Start lc' ctx w'
      end
  end.

(** Stop hooks run in reverse order; every hook runs, the first error
    is reported. *)
Fixpoint Stop (lc : Lifecycle) (ctx : Context) (w : World)
    : option error * World :=
  match lc with
  | [] => (None, w)
  | hk :: lc' =>
      let '(e1, w1) := Stop lc' ctx w in
      let '(e2, w2) := OnStop hk ctx w1 in
      (match e1 with Some e => Some e | None => e2 end, w2)
  end.

End fx.

(** ** NewHTTPServer of main.go *)

Definition OnStart (log : zap.Logger) (ctx : Context) (w : World)
    : option error * World :=
  match net_Listen "tcp" (Addr (srv w)) w with
  | (inr err, w1) => (Some err, w1)
  | (inl ln, w1) =>
      let w2 := Info log "Starting HTTP server at"
                  [zap.String "addr" (Addr (srv w1))] w1 in
      let w3 := go (Serve_task ln) w2 in
      (None, w3)
  end.

Definition OnStop (ctx : Context) (w : World) : option error * World :=
  Server_Shutdown ctx w.

Definition NewHTTPServer (lc : fx.Lifecycle) (mx : mux.ServeMux)
    (log : zap.Logger) : Server * fx.Lifecycle :=
  let srv := {| Addr := ":8080"; Handler := mx; listeners := [];
                conns := []; inShutdown := false |} in
  (srv, fx.Append lc {| fx.OnStart := OnStart log; fx.OnStop := OnStop |}).

(** ** The application: what [fx.New(...)] of main.go builds

    fx calls a provided constructor when its result is first needed and
    keeps the result: the container remembers what has been built and
    the constructors it has run.  A constructor that panics aborts the
    construction. *)
Record Container := {
  c_log : option zap.Logger;
  c_routes : option (list Route);
  c_mux : option mux.ServeMux;
  c_srv : option Server;
  c_lc : fx.Lifecycle;
  calls : list string
}.

Definition empty_container : Container :=
  {| c_log := None; c_routes := None; c_mux := None; c_srv := None;
     c_lc := []; calls := [] |}.

(** [zap.NewExample] *)
Definition get_Logger (c : Container) : zap.Logger * Container :=
  match c_log c with
  | Some l => (l, c)
  | None =>
      let l := zap.NewExample in
      (l, {| c_log := Some l; c_routes := c_routes c; c_mux := c_mux c;
             c_srv := c_srv c; c_lc := c_lc c;
             calls := calls c ++ ["zap.NewExample"] |})
  end.

(** A constructor provided into the value group "routes". *)
Record Provider := { constructor : string; provide : zap.Logger -> Route }.

(** The providers of main.go: [AsRoute(NewEchoHandler)] and
    [AsRoute(NewHelloHandler)]. *)
Definition main_routes : list Provider :=
  [ {| constructor := "NewEchoHandler"; provide := AsRoute NewEchoHandler |};
    {| constructor := "NewHelloHandler"; provide := AsRoute NewHelloHandler |} ].

(** The value group "routes": every provider of the group is run. *)
Definition get_routes (group : list Provider) (c : Container)
    : list Route * Container :=
  match c_routes c with
  | Some rs => (rs, c)
  | None =>
      let '(log, c1) := get_Logger c in
      let rs := (fun p => provide p log) <$> group in
      (rs, {| c_log := c_log c1; c_routes := Some rs; c_mux := c_mux c1;
              c_srv := c_srv c1; c_lc := c_lc c1;
              calls := calls c1 ++ (constructor <$> group) |})
  end.

(** [fx.Annotate(NewServeMux, fx.ParamTags(`group:"routes"`))] *)
Definition get_ServeMux (group : list Provider) (c : Container)
    : result (mux.ServeMux * Container) :=
  match c_mux c with
  | Some mx => Ok (mx, c)
  | None =>
      let '(rs, c1) := get_routes group c in
      mx ← NewServeMux rs;
      Ok (mx, {| c_log := c_log c1; c_routes := c_routes c1;
                 c_mux := Some mx; c_srv := c_srv c1; c_lc := c_lc c1;
                 calls := calls c1 ++ ["NewServeMux"] |})
  end.

(** [NewHTTPServer] *)
Definition get_Server (group : list Provider) (c : Container)
    : result (Server * Container) :=
  match c_srv c with
  | Some s => Ok (s, c)
  | None =>
      '(mx, c1) ← get_ServeMux group c;
      let '(log, c2) := get_Logger c1 in
      let '(s, lc) := NewHTTPServer (c_lc c2) mx log in
      Ok (s, {| c_log := c_log c2; c_routes := c_routes c2;
                c_mux := c_mux c2; c_srv := Some s; c_lc := lc;
                calls := calls c2 ++ ["NewHTTPServer"] |})
  end.

(** [fx.New(...)]: the invoked function asks for the [*http.Server]. *)
Definition New_with (group : list Provider) : result Container :=
  '(_, c) ← get_Server group empty_container;
  Ok c.

Definition New : result Container := New_with main_routes.

(** The world the application starts in: [taken] are the addresses other
    processes are listening on. *)
Definition boot (s : Server) (taken : gset string) : World :=
  {| srv := s; bound := taken; listens := []; zlog := [];
     goroutines := []; responses := [] |}.

(** ** What happens while the application runs *)

Inductive Op :=
| Start (ctx : Context)          (* the lifecycle runs the start hooks *)
| Stop (ctx : Context)           (* the lifecycle runs the stop hooks *)
| Schedule                       (* the next spawned goroutine runs *)
| Request (r : http.Request) (b : io.Reader) (room : option nat)
                                 (* a client's request, answered at once *)
| Busy (work : nat)              (* a client keeps a connection busy *)
| InFlight (work : nat) (r : http.Request) (b : io.Reader)
    (room : option nat)          (* a client's request, answered once its
                                    work is spent *)
| Tick.                          (* a tick of time passes *)

Definition accepting (w : World) : bool :=
  match listeners (srv w) with [] => false | _ :: _ => true end.

(** The server answers a request at once; the connection stays open,
    idle, when it is kept. *)
Definition answer (r : http.Request) (b : io.Reader) (room : option nat)
    (w : World) : World :=
  let '(keep, w') := respond r b room w in
  if keep then add_conn 0 w' else w'.

Definition schedule (w : World) : World :=
  match goroutines w with
  | [] => w
  | Serve_task ln :: ts =>
      snd (Server_Serve ln
             {| srv := srv w; bound := bound w; listens := listens w;
                zlog := zlog w; goroutines := ts;
                responses := responses w |})
  end.

Definition step (lc : fx.Lifecycle) (w : World) (o : Op) : World :=
  match o with
  | Start ctx => snd (fx.Start lc ctx w)
  | Stop ctx => snd (fx.Stop lc ctx w)
  | Schedule => schedule w
  | Request r b room => if accepting w then answer r b room w else w
  | Busy work => if accepting w then add_conn work w else w
  | InFlight work r b room =>
      if accepting w
      then set_conns ({| work := work; inflight := Some (r, b, room) |}
                        :: conns (srv w)) w
      else w
  | Tick => tick w
  end.

Definition run (lc : fx.Lifecycle) (w : World) (ops : list Op) : World :=
  foldl (step lc) w ops.

(** The state a handler is started in by the server: a response writer
    nothing has been written to, the request body, and the log so far. *)
Definition exchange (room : option nat) (b : io.Reader)
    (log0 : list zap.Entry) : Exchange :=
  {| rw := http.fresh room; rbody := b; sink := log0 |}.

(** The state a handler leaves behind. *)
Definition after {A} (handler : M A) (s : Exchange) : Exchange :=
  snd (handler s).

Definition POST (path : string) : http.Request :=
  {| http.Method := "POST"; http.Path := path;
     http.Proto11 := true; http.Close := false |}.

Definition GET (path : string) : http.Request :=
  {| http.Method := "GET"; http.Path := path;
     http.Proto11 := true; http.Close := false |}.

(** The greeting the hello handler is to answer a body [B] with. *)
Definition greeting (B : bytes) : bytes := bytes_of "Hello, " ++ B ++ [LF].

Definition entry (lvl : zap.Level) (l : zap.Logger) (msg : string)
    (fs : list zap.Field) : zap.Entry :=
  {| zap.EntryLevel := lvl; zap.EntryLogger := zap.LoggerName l;
     zap.Message := msg; zap.Fields := fs |}.

(** A server whose shutdown is complete: it is marked as shut down, it
    has no listener and no open connection. *)
Definition stopped (w : World) : Prop :=
  inShutdown (srv w) = true /\ listeners (srv w) = [] /\ conns (srv w) = [].

(** A hook that leaves the server's route table as it found it. *)
Definition keeps_table (hk : fx.Hook) : Prop :=
  forall ctx w,
    Handler (srv (snd (fx.OnStart hk ctx w))) = Handler (srv w)
    /\ Handler (srv (snd (fx.OnStop hk ctx w))) = Handler (srv w).

(** [frame w w']: the worlds differ at most in the open connections,
    the log and the responses sent. *)
Definition frame (w w' : World) : Prop :=
  Addr (srv w') = Addr (srv w)
  /\ Handler (srv w') = Handler (srv w)
  /\ listeners (srv w') = listeners (srv w)
  /\ inShutdown (srv w') = inShutdown (srv w)
  /\ bound w' = bound w
  /\ listens w' = listens w
  /\ goroutines w' = goroutines w.

(** [Breaks r B e rest]: the reads of [r] hand out the bytes [B] and
    then one of them reports the error [e], which is not EOF (the failing
    read may itself carry the last bytes of [B]); [rest] is what is left
    of the reader after the failing read. *)
Inductive Breaks : io.Reader -> bytes -> error -> io.Reader -> Prop :=
| Breaks_here p e rest : e <> EOF -> Breaks ((p, Some e) :: rest) p e rest
| Breaks_later p r B e rest :
    Breaks r B e rest -> Breaks ((p, None) :: r) (p ++ B) e rest.

(** All the bytes a reader's script holds, read or not. *)
Definition data_of (r : io.Reader) : bytes := concat (r.*1).

(** The entry a route is registered under, and the table that holds the
    entries of the given routes and nothing else. *)
Definition entry_of (route : Route) : mux.muxEntry :=
  {| mux.h := route; mux.pattern := Pattern route |}.

Definition entries (routes : list Route) : list (string * mux.muxEntry) :=
  (fun route => (Pattern route, entry_of route)) <$> routes.

Definition table (routes : list Route) : mux.ServeMux :=
  {| mux.m := list_to_map (entries routes); mux.es := [] |}.


(** * Properties *)

(** ** Readers and writers *)

Lemma ReadAll_loop_delivers r B :
  io.Delivers r B ->
  forall b, exists r', io.ReadAll_loop r b = ((b ++ B, None), r').
Proof.
  induction 1 as [|p r|p r B _ IH]; intros b; simpl.
  - exists []. by rewrite app_nil_r.
  - exists r. by destruct (decide (EOF = EOF)).
  - destruct (IH (b ++ p)) as [r' ->]. exists r'. by rewrite <- app_assoc.
Qed.

Lemma ReadAll_delivers r B :
  io.Delivers r B -> exists r', io.ReadAll r = ((B, None), r').
Proof. intros HB. apply (ReadAll_loop_delivers r B HB []). Qed.

Lemma ReadAll_loop_fails r e rest :
  io.Fails r e rest ->
  forall b, exists b', io.ReadAll_loop r b = ((b', Some e), rest).
Proof.
  induction 1 as [p e rest Hne|p r e rest _ IH]; intros b; simpl.
  - exists (b ++ p). by destruct (decide (e = EOF)).
  - apply IH.
Qed.

(** [Delivers] and [Fails] say no more and no less than what [ReadAll]
    returns. *)
Lemma ReadAll_loop_inv r :
  forall b b' err rest,
    io.ReadAll_loop r b = ((b', err), rest) ->
    match err with
    | None => exists B, io.Delivers r B /\ b' = b ++ B
    | Some e => io.Fails r e rest
    end.
Proof.
  induction r as [|[p [e|]] r IH]; intros b b' err rest; simpl.
  - intros [= <- <- <-]. exists []. split; [constructor|by rewrite app_nil_r].
  - destruct (decide (e = EOF)) as [->|Hne]; intros [= <- <- <-].
    + exists p. split; [constructor|done].
    + by constructor.
  - intros Hr. specialize (IH _ _ _ _ Hr). destruct err as [e|].
    + by constructor.
    + destruct IH as (B & HB & ->). exists (p ++ B).
      split; [by constructor|by rewrite app_assoc].
Qed.

Lemma Write_accepted p w n :
  http.accepts w n -> length p <= n ->
  exists w',
    http.Write p w = ((length p, None), w')
    /\ http.body w' = http.body w ++ p
    /\ http.status w' = Some (default http.StatusOK (http.status w))
    /\ http.Header w' = http.Header w
    /\ http.accepts w' (n - length p).
Proof.
  unfold http.accepts, http.Write, http.WriteHeader.
  destruct w as [st hd bd [k|]]; simpl; intros Hacc Hlen.
  - destruct st; simpl; (rewrite decide_True by lia); eexists;
      (split; [reflexivity|]); simpl; repeat split; lia.
  - destruct st; simpl; eexists; (split; [reflexivity|]); simpl; done.
Qed.

Lemma Write_refused p w :
  ~ http.accepts w (length p) ->
  exists k w',
    http.room w = Some k /\ k < length p
    /\ http.Write p w = ((k, Some EPIPE), w')
    /\ http.body w' = http.body w ++ take k p
    /\ http.status w' = Some (default http.StatusOK (http.status w))
    /\ http.room w' = Some 0.
Proof.
  unfold http.accepts, http.Write, http.WriteHeader.
  destruct w as [st hd bd [k|]]; simpl; intros Hacc; [|done].
  exists k. destruct st; simpl; (rewrite decide_False by lia); eexists;
    repeat split; lia.
Qed.

Lemma Sprintf_hello (B : bytes) :
  fmt.Sprintf hello_format [B] = bytes_of "Hello, " ++ B ++ [LF].
Proof. reflexivity. Qed.

Lemma accepts_less w n k : http.accepts w n -> k <= n -> http.accepts w k.
Proof. unfold http.accepts. destruct (http.room w); [lia|done]. Qed.

Lemma Copy_loop_delivers src B :
  io.Delivers src B ->
  forall dst n, http.accepts dst (length B) ->
  exists dst' src',
    Copy_loop src dst n = ((n + length B, None), (dst', src'))
    /\ http.body dst' = http.body dst ++ B
    /\ (http.status dst' = http.status dst
        \/ http.status dst' = Some (default http.StatusOK (http.status dst))).
Proof.
  induction 1 as [|p r|p r B _ IH]; intros dst n Hacc; simpl.
  - exists dst, []. rewrite Nat.add_0_r, app_nil_r. auto.
  - destruct (decide (0 < length p)) as [Hp|Hp].
    + destruct (Write_accepted p dst (length p) Hacc (le_n _))
        as (w' & -> & Hb & Hs & _). simpl.
      rewrite decide_True by done. exists w', r. auto.
    + assert (p = []) as -> by (destruct p; simpl in *; [done|lia]).
      simpl. exists dst, r. rewrite Nat.add_0_r, app_nil_r. auto.
  - rewrite length_app in Hacc.
    destruct (decide (0 < length p)) as [Hp|Hp].
    + destruct (Write_accepted p dst _ Hacc (Nat.le_add_r _ _))
        as (w' & -> & Hb & Hs & _ & Hacc'). simpl.
      rewrite decide_True by done.
      replace (length p + length B - length p) with (length B) in Hacc' by lia.
      destruct (IH w' (n + length p) Hacc') as (w'' & r' & -> & Hb' & Hs').
      exists w'', r'. rewrite length_app, Nat.add_assoc.
      split; [done|]. split; [by rewrite Hb', Hb, <- app_assoc|].
      destruct Hs' as [->| ->]; rewrite Hs; auto.
    + assert (p = []) as -> by (destruct p; simpl in *; [done|lia]).
      simpl in *. rewrite Nat.add_0_r.
      destruct (IH dst n Hacc) as (w'' & r' & -> & Hb' & Hs').
      exists w'', r'. auto.
Qed.

Lemma Copy_loop_refused src B :
  io.Delivers src B ->
  forall dst n, ~ http.accepts dst (length B) ->
  exists k written dst' src',
    http.room dst = Some k
    /\ Copy_loop src dst n = ((written, Some EPIPE), (dst', src'))
    /\ http.body dst' = http.body dst ++ take k B
    /\ http.status dst' = Some (default http.StatusOK (http.status dst)).
Proof.
  induction 1 as [|p r|p r B _ IH]; intros dst n Hacc; simpl.
  - exfalso. apply Hacc. unfold http.accepts.
    destruct (http.room dst); simpl; [lia|done].
  - destruct (Write_refused p dst Hacc)
      as (k & w' & Hroom & Hk & Hw & Hb & Hs & _).
    rewrite decide_True by lia. rewrite Hw. simpl.
    exists k, (n + k), w', r. auto.
  - destruct (decide (http.accepts dst (length p))) as [Hp|Hp].
    + assert (exists k, http.room dst = Some k) as [k Hroom].
      { unfold http.accepts in Hacc. destruct (http.room dst); [eauto|done]. }
      destruct (Write_accepted p dst _ Hp (le_n _))
        as (w' & Hw & Hb & Hs & _ & _).
      assert (http.room w' = Some (k - length p) /\ length p <= k)
        as [Hroom' Hpk].
      { revert Hw Hp. unfold http.Write, http.WriteHeader, http.accepts.
        destruct dst as [st hd bd rm]; simpl in *; subst rm.
        destruct st; simpl; intros Hw Hp; (rewrite decide_True in Hw by done);
          inversion Hw; done. }
      assert (~ http.accepts w' (length B)) as Hacc'.
      { unfold http.accepts in *. rewrite Hroom in Hacc. rewrite Hroom'.
        rewrite length_app in Hacc. lia. }
      destruct (decide (0 < length p)) as [Hlen|Hlen].
      * rewrite Hw. simpl. rewrite decide_True by done.
        destruct (IH w' (n + length p) Hacc')
          as (k' & wr & w'' & r' & Hroom'' & -> & Hb' & Hs').
        assert (k' = k - length p) as -> by congruence.
        exists k, wr, w'', r'. repeat split; [done| |].
        -- rewrite Hb', Hb, <- app_assoc. f_equal.
           rewrite take_app_ge by done. done.
        -- rewrite Hs', Hs. by destruct (http.status dst).
      * assert (p = []) as -> by (destruct p; simpl in *; [done|lia]).
        simpl in *. rewrite Nat.add_0_r.
        assert (~ http.accepts dst (length B)) as Hacc''.
        { unfold http.accepts in *. rewrite Hroom in *. lia. }
        destruct (IH dst n Hacc'')
          as (k' & wr & w'' & r' & Hroom'' & -> & Hb' & Hs').
        exists k', wr, w'', r'. auto.
    + destruct (Write_refused p dst Hp)
        as (k & w' & Hroom & Hk & Hw & Hb & Hs & _).
      rewrite decide_True by lia. rewrite Hw. simpl.
      exists k, (n + k), w', r. repeat split; [done| |done].
      rewrite Hb. f_equal. rewrite take_app_le by lia. done.
Qed.

Lemma Copy_loop_status src :
  forall dst n,
    http.status (fst (snd (Copy_loop src dst n))) = http.status dst
    \/ http.status (fst (snd (Copy_loop src dst n)))
       = Some (default http.StatusOK (http.status dst)).
Proof.
  induction src as [|[p er] src IH]; intros dst n; simpl; [auto|].
  destruct (decide (0 < length p)) as [Hp|Hp].
  - destruct (decide (http.accepts dst (length p))) as [Hacc|Hacc].
    + destruct (Write_accepted p dst _ Hacc (le_n _))
        as (w' & -> & _ & Hs & _). simpl.
      rewrite decide_True by done.
      destruct er as [err|]; simpl; [auto|].
      destruct (IH w' (n + length p)) as [-> | ->]; rewrite Hs; auto.
    + destruct (Write_refused p dst Hacc)
        as (k & w' & _ & _ & -> & _ & Hs & _). simpl. auto.
  - simpl. destruct (decide (length p = 0)); simpl; [|auto].
    destruct er as [err|]; simpl; [auto|]. apply IH.
Qed.

Lemma Delivers_of_chunks (chunks : list bytes) :
  io.Delivers (io.of_chunks chunks) (concat chunks).
Proof.
  induction chunks as [|p chunks IH]; simpl.
  - apply io.Delivers_end.
  - apply io.Delivers_chunk, IH.
Defined.

Lemma clip_accepted room p :
  http.accepts (http.fresh room) (length p) -> http.clip room p = p.
Proof.
  unfold http.accepts. destruct room as [k|]; simpl; [|done].
  intros Hk. by rewrite take_ge.
Qed.

(** ** The echo handler *)

Lemma Echo_ServeHTTP_delivers h r src B room log0 :
  io.Delivers src B ->
  exists s',
    Echo.ServeHTTP h r (exchange room src log0) = (tt, s')
    /\ http.body (rw s') = http.clip room B
    /\ (http.status (rw s') = None \/ http.status (rw s') = Some http.StatusOK)
    /\ sink s' =
         (if decide (http.accepts (http.fresh room) (length B)) then log0
          else log0 ++ [entry zap.WarnLevel (echo_log h)
                          "Failed to handle request" [zap.Error EPIPE]])
    /\ (~ http.accepts (http.fresh room) (length B) ->
         http.status (rw s') = Some http.StatusOK).
Proof.
  intros HB. unfold Echo.ServeHTTP, exchange, mbind, M_bind, io_Copy. simpl.
  destruct (decide (http.accepts (http.fresh room) (length B))) as [Hacc|Hacc].
  - destruct (Copy_loop_delivers src B HB (http.fresh room) 0 Hacc)
      as (w' & r' & -> & Hb & Hs). simpl in *.
    eexists. split; [reflexivity|]. simpl.
    rewrite Hb, clip_accepted by done. by repeat split.
  - destruct (Copy_loop_refused src B HB (http.fresh room) 0 Hacc)
      as (k & n & w' & r' & Hroom & -> & Hb & Hs). simpl in *.
    subst room. eexists. split; [reflexivity|]. simpl.
    rewrite Hb. by repeat split; auto.
Qed.

(** C1 (amended).  For every byte sequence [B] the request body delivers
    to the echo handler, whatever the request's method and path, the
    response body is [B] cut to what the client connection accepts: it is
    byte-identical to [B] when the connection accepts the whole of [B],
    in which case nothing is logged, and it is never anything but a
    prefix of [B]. *)
Theorem echo_response_is_request_body
    (h : EchoHandler) (r : http.Request) (src : io.Reader) (B : bytes)
    (room : option nat) (log0 : list zap.Entry) :
  io.Delivers src B ->
  http.body (rw (after (Echo.ServeHTTP h r) (exchange room src log0)))
    = http.clip room B
  /\ (http.accepts (http.fresh room) (length B) ->
      http.body (rw (after (Echo.ServeHTTP h r) (exchange room src log0))) = B
      /\ sink (after (Echo.ServeHTTP h r) (exchange room src log0)) = log0).
Proof.
  intros HB. unfold after.
  destruct (Echo_ServeHTTP_delivers h r src B room log0 HB)
    as (s' & -> & Hb & _ & Hlog & _). simpl.
  split; [done|]. intros Hacc.
  rewrite Hb, Hlog, clip_accepted, decide_True by done. done.
Qed.

Lemma echo_response_is_request_body_witness :
  io.Delivers (io.of_chunks [bytes_of "wor"; bytes_of "ld"]) (bytes_of "world")
  /\ http.body (rw (after (Echo.ServeHTTP (NewEchoHandler zap.NewExample)
                             (GET "/echo"))
                      (exchange (Some 5)
                         (io.of_chunks [bytes_of "wor"; bytes_of "ld"]) [])))
     = bytes_of "world".
Proof.
  split.
  - exact (Delivers_of_chunks [bytes_of "wor"; bytes_of "ld"]).
  - refine (proj1 (proj2 (echo_response_is_request_body
                            (NewEchoHandler zap.NewExample) (GET "/echo")
                            (io.of_chunks [bytes_of "wor"; bytes_of "ld"])
                            (bytes_of "world") (Some 5) [] _) _)).
    + exact (Delivers_of_chunks [bytes_of "wor"; bytes_of "ld"]).
    + unfold http.accepts. simpl. lia.
Defined.

(** C1 as stated fails: a client that stops reading after three bytes
    gets three bytes of a five-byte body. *)
Lemma echo_response_cut_short :
  io.Delivers (io.of_chunks [bytes_of "world"]) (bytes_of "world")
  /\ http.body (rw (after (Echo.ServeHTTP (NewEchoHandler zap.NewExample)
                             (POST "/echo"))
                      (exchange (Some 3) (io.of_chunks [bytes_of "world"]) [])))
     <> bytes_of "world".
Proof.
  split; [exact (Delivers_of_chunks [bytes_of "world"])|].
  vm_compute. discriminate.
Qed.

(** C5.  The echo handler returns normally on every input and never
    sets an error status: the status is the 200 a first write implies,
    or still unset.  It logs nothing, or one entry.  When the client
    connection does not accept the whole body, all the handler does
    about the failure is log one warning that carries the write error;
    the status is 200. *)
Theorem echo_write_failure_only_logged
    (h : EchoHandler) (r : http.Request) (src : io.Reader)
    (room : option nat) (log0 : list zap.Entry) :
  (exists s',
     Echo.ServeHTTP h r (exchange room src log0) = (tt, s')
     /\ (http.status (rw s') = None \/ http.status (rw s') = Some http.StatusOK)
     /\ (sink s' = log0
         \/ exists err,
              sink s' = log0 ++ [entry zap.WarnLevel (echo_log h)
                                   "Failed to handle request" [zap.Error err]]))
  /\ (forall B,
        io.Delivers src B ->
        ~ http.accepts (http.fresh room) (length B) ->
        exists s',
          Echo.ServeHTTP h r (exchange room src log0) = (tt, s')
          /\ sink s' = log0 ++ [entry zap.WarnLevel (echo_log h)
                                  "Failed to handle request" [zap.Error EPIPE]]
          /\ http.status (rw s') = Some http.StatusOK).
Proof.
  split.
  - unfold Echo.ServeHTTP, exchange, mbind, M_bind, io_Copy. simpl.
    pose proof (Copy_loop_status src (http.fresh room) 0) as Hs.
    destruct (Copy_loop src (http.fresh room) 0) as [[n err] [w' r']].
    simpl in Hs. destruct err as [err|]; simpl.
    + eexists. split; [reflexivity|]. simpl. split; [done|]. right.
      by exists err.
    + eexists. split; [reflexivity|]. simpl. auto.
  - intros B HB Hacc.
    destruct (Echo_ServeHTTP_delivers h r src B room log0 HB)
      as (s' & Hrun & _ & _ & Hlog & Hs).
    exists s'. rewrite decide_False in Hlog by done. auto.
Qed.

Lemma echo_write_failure_only_logged_witness :
  exists s',
    Echo.ServeHTTP (NewEchoHandler zap.NewExample) (POST "/echo")
      (exchange (Some 3) (io.of_chunks [bytes_of "world"]) []) = (tt, s')
    /\ sink s' = [] ++ [entry zap.WarnLevel
                          (echo_log (NewEchoHandler zap.NewExample))
                          "Failed to handle request" [zap.Error EPIPE]]
    /\ http.status (rw s') = Some http.StatusOK.
Proof.
  apply (proj2 (echo_write_failure_only_logged (NewEchoHandler zap.NewExample)
                  (POST "/echo") (io.of_chunks [bytes_of "world"])
                  (Some 3) []) (bytes_of "world")).
  - exact (Delivers_of_chunks [bytes_of "world"]).
  - unfold http.accepts. simpl. lia.
Defined.

(** ** The hello handler *)

#[local] Arguments fmt.Sprintf : simpl never.

Lemma Hello_ServeHTTP_delivers h r src B room log0 :
  io.Delivers src B ->
  exists s',
    Hello.ServeHTTP h r (exchange room src log0) = (tt, s')
    /\ http.body (rw s') = http.clip room (greeting B)
    /\ http.status (rw s') = Some http.StatusOK
    /\ sink s' =
         (if decide (http.accepts (http.fresh room) (length (greeting B)))
          then log0
          else log0 ++ [entry zap.ErrorLevel (hello_log h)
                          "Failed to write response" [zap.Error EPIPE]]).
Proof.
  intros HB. destruct (ReadAll_delivers src B HB) as [r' Hr].
  pose proof (Sprintf_hello B) as HS. fold (greeting B) in HS.
  revert HS. generalize (greeting B) as g. intros g HS.
  unfold Hello.ServeHTTP, exchange, mbind, M_bind, io_ReadAll. simpl.
  rewrite Hr. simpl. unfold Fprintf, on_writer. rewrite HS.
  unfold http.accepts, http.Write, http.WriteHeader, http.fresh. simpl.
  destruct room as [k|]; simpl.
  - destruct (decide (length g <= k)) as [Hk|Hk]; simpl.
    + eexists. split; [reflexivity|]. simpl. by rewrite take_ge.
    + eexists. split; [reflexivity|]. simpl. by rewrite app_nil_r.
  - eexists. split; [reflexivity|]. done.
Qed.

Lemma Hello_ServeHTTP_fails h r src e rest room log0 :
  io.Fails src e rest ->
  exists s',
    Hello.ServeHTTP h r (exchange room src log0) = (tt, s')
    /\ http.status (rw s') = Some http.StatusInternalServerError
    /\ http.body (rw s') = http.clip room (line "Internal server error")
    /\ sink s' = log0 ++ [entry zap.ErrorLevel (hello_log h)
                            "Failed to read request" [zap.Error e]]
    /\ rbody s' = rest.
Proof.
  intros HF. destruct (ReadAll_loop_fails src e rest HF []) as [b' Hr].
  unfold Hello.ServeHTTP, exchange, mbind, M_bind, io_ReadAll, io.ReadAll.
  simpl. rewrite Hr. simpl.
  unfold http_Error, Fprintln, on_writer, mbind, M_bind, mret, M_ret.
  generalize (line "Internal server error") as msg. intros msg.
  unfold http.Write, http.WriteHeader, http.fresh. simpl.
  destruct room as [k|]; simpl.
  - destruct (decide (length msg <= k)) as [Hk|Hk]; simpl.
    + eexists. split; [reflexivity|]. simpl. by rewrite take_ge.
    + eexists. split; [reflexivity|]. done.
  - eexists. split; [reflexivity|]. done.
Qed.

(** C2.  When the request body delivers the text [T] and the client
    connection accepts the greeting, the hello handler answers with the
    body "Hello, " followed by [T] and a line feed, with status 200, and
    logs nothing. *)
Theorem hello_greets
    (h : HelloHandler) (r : http.Request) (src : io.Reader) (T : bytes)
    (room : option nat) (log0 : list zap.Entry) :
  io.Delivers src T ->
  http.accepts (http.fresh room) (length (bytes_of "Hello, " ++ T ++ [LF])) ->
  http.body (rw (after (Hello.ServeHTTP h r) (exchange room src log0)))
    = bytes_of "Hello, " ++ T ++ [LF]
  /\ http.status (rw (after (Hello.ServeHTTP h r) (exchange room src log0)))
     = Some 200
  /\ sink (after (Hello.ServeHTTP h r) (exchange room src log0)) = log0.
Proof.
  intros HT Hacc. unfold after.
  destruct (Hello_ServeHTTP_delivers h r src T room log0 HT)
    as (s' & -> & Hb & Hs & Hlog). simpl.
  unfold greeting in *. rewrite decide_True in Hlog by done.
  rewrite Hb, clip_accepted by done. done.
Qed.

Lemma hello_greets_witness :
  http.body (rw (after (Hello.ServeHTTP (NewHelloHandler zap.NewExample)
                          (POST "/hello"))
                   (exchange None (io.of_chunks [bytes_of "wor"; bytes_of "ld"])
                      [])))
    = bytes_of "Hello, " ++ bytes_of "world" ++ [LF]
  /\ http.status (rw (after (Hello.ServeHTTP (NewHelloHandler zap.NewExample)
                               (POST "/hello"))
                        (exchange None
                           (io.of_chunks [bytes_of "wor"; bytes_of "ld"]) [])))
     = Some 200
  /\ sink (after (Hello.ServeHTTP (NewHelloHandler zap.NewExample)
                    (POST "/hello"))
             (exchange None (io.of_chunks [bytes_of "wor"; bytes_of "ld"]) []))
     = [].
Proof.
  apply (hello_greets (NewHelloHandler zap.NewExample) (POST "/hello")
           (io.of_chunks [bytes_of "wor"; bytes_of "ld"]) (bytes_of "world")
           None []).
  - exact (Delivers_of_chunks [bytes_of "wor"; bytes_of "ld"]).
  - exact I.
Defined.

(** C10 (amended).  For every byte sequence [B] the request body
    delivers, the empty one and those that are not valid UTF-8 included,
    the hello handler formats [B] with %s: the formatted text is
    "Hello, ", the bytes of [B] as they are, and a line feed.  The
    response body is that text cut to what the client connection
    accepts, hence exactly that text when the connection accepts it. *)
Theorem hello_formats_raw_bytes
    (h : HelloHandler) (r : http.Request) (src : io.Reader) (B : bytes)
    (room : option nat) (log0 : list zap.Entry) :
  io.Delivers src B ->
  fmt.Sprintf hello_format [B] = bytes_of "Hello, " ++ B ++ [LF]
  /\ http.body (rw (after (Hello.ServeHTTP h r) (exchange room src log0)))
     = http.clip room (bytes_of "Hello, " ++ B ++ [LF])
  /\ (http.accepts (http.fresh room) (length (bytes_of "Hello, " ++ B ++ [LF])) ->
      http.body (rw (after (Hello.ServeHTTP h r) (exchange room src log0)))
      = bytes_of "Hello, " ++ B ++ [LF]).
Proof.
  intros HB. unfold after.
  destruct (Hello_ServeHTTP_delivers h r src B room log0 HB)
    as (s' & -> & Hb & _). simpl. unfold greeting in Hb.
  split; [apply Sprintf_hello|]. split; [done|].
  intros Hacc. by rewrite Hb, clip_accepted.
Qed.

Lemma hello_formats_raw_bytes_witness :
  io.Delivers (io.of_chunks [[xff; xfe]; []; [xc3]]) [xff; xfe; xc3]
  /\ http.body (rw (after (Hello.ServeHTTP (NewHelloHandler zap.NewExample)
                             (POST "/hello"))
                      (exchange None (io.of_chunks [[xff; xfe]; []; [xc3]]) [])))
     = bytes_of "Hello, " ++ [xff; xfe; xc3] ++ [LF].
Proof.
  split.
  - exact (Delivers_of_chunks [[xff; xfe]; []; [xc3]]).
  - refine (proj2 (proj2 (hello_formats_raw_bytes
                            (NewHelloHandler zap.NewExample) (POST "/hello")
                            (io.of_chunks [[xff; xfe]; []; [xc3]])
                            [xff; xfe; xc3] None [] _)) _).
    + exact (Delivers_of_chunks [[xff; xfe]; []; [xc3]]).
    + exact I.
Defined.

(** C10 as stated fails: the body is readable, yet a client that stops
    reading after three bytes does not get the whole greeting. *)
Lemma hello_greeting_cut_short :
  io.Delivers (io.of_chunks [[xff; xfe]]) [xff; xfe]
  /\ http.body (rw (after (Hello.ServeHTTP (NewHelloHandler zap.NewExample)
                             (POST "/hello"))
                      (exchange (Some 3) (io.of_chunks [[xff; xfe]]) [])))
     <> bytes_of "Hello, " ++ [xff; xfe] ++ [LF].
Proof.
  split; [exact (Delivers_of_chunks [[xff; xfe]])|].
  vm_compute. discriminate.
Qed.

(** C4.  When a read of the request body fails, the hello handler
    answers with status 500, logs one entry at error level that carries
    the read error, writes the error line and no greeting, and leaves
    the body where the failed read left it: it does not read again. *)
Theorem hello_read_failure
    (h : HelloHandler) (r : http.Request) (src : io.Reader) (e : error)
    (rest : io.Reader) (room : option nat) (log0 : list zap.Entry) :
  io.Fails src e rest ->
  exists s',
    Hello.ServeHTTP h r (exchange room src log0) = (tt, s')
    /\ http.status (rw s') = Some 500
    /\ sink s' = log0 ++ [entry zap.ErrorLevel (hello_log h)
                            "Failed to read request" [zap.Error e]]
    /\ http.body (rw s') = http.clip room (line "Internal server error")
    /\ ~ (bytes_of "Hello, " `prefix_of` http.body (rw s'))
    /\ rbody s' = rest.
Proof.
  intros HF.
  destruct (Hello_ServeHTTP_fails h r src e rest room log0 HF)
    as (s' & Hrun & Hs & Hb & Hlog & Hr).
  exists s'. repeat split; try done.
  rewrite Hb. intros [x Hx]. destruct room as [[|k]|]; simpl in Hx;
    discriminate Hx.
Qed.

Lemma hello_read_failure_witness :
  exists s',
    Hello.ServeHTTP (NewHelloHandler zap.NewExample) (POST "/hello")
      (exchange None
         [(bytes_of "wor", None); ([], Some (Errno "unexpected EOF"));
          (bytes_of "ld", None)] []) = (tt, s')
    /\ http.status (rw s') = Some 500
    /\ sink s' = [] ++ [entry zap.ErrorLevel
                          (hello_log (NewHelloHandler zap.NewExample))
                          "Failed to read request"
                          [zap.Error (Errno "unexpected EOF")]]
    /\ http.body (rw s') = http.clip None (line "Internal server error")
    /\ ~ (bytes_of "Hello, " `prefix_of` http.body (rw s'))
    /\ rbody s' = [(bytes_of "ld", None)].
Proof.
  apply (hello_read_failure (NewHelloHandler zap.NewExample) (POST "/hello")).
  apply io.Fails_later, io.Fails_here. discriminate.
Defined.

(** ** Route registration *)

Lemma Pattern_nonempty route : Pattern route <> "".
Proof. by destruct route. Qed.

Lemma Pattern_no_slash route : mux.ends_in_slash (Pattern route) = false.
Proof. by destruct route. Qed.

Lemma Handle_fresh route mx :
  mux.m mx !! Pattern route = None ->
  mux.Handle (Pattern route) route mx
  = Ok {| mux.m := <[Pattern route :=
                      {| mux.h := route; mux.pattern := Pattern route |}]>
                     (mux.m mx);
          mux.es := mux.es mx |}.
Proof.
  intros Hm. unfold mux.Handle.
  rewrite decide_False by apply Pattern_nonempty.
  by rewrite Hm, Pattern_no_slash.
Qed.

Lemma Handle_registered route mx :
  is_Some (mux.m mx !! Pattern route) ->
  mux.Handle (Pattern route) route mx
  = Panic ("http: multiple registrations for " +:+ Pattern route).
Proof.
  intros [e He]. unfold mux.Handle.
  rewrite decide_False by apply Pattern_nonempty.
  by rewrite He.
Qed.

Lemma register_cons route routes mx :
  mux.m mx !! Pattern route = None ->
  register (route :: routes) mx
  = register routes
      {| mux.m := <[Pattern route :=
                     {| mux.h := route; mux.pattern := Pattern route |}]>
                    (mux.m mx);
         mux.es := mux.es mx |}.
Proof. intros Hm. cbn [register]. by rewrite Handle_fresh. Qed.

Lemma register_duplicate routes :
  forall mx,
    ~ NoDup (Pattern <$> routes)
    \/ (exists route, route ∈ routes /\ is_Some (mux.m mx !! Pattern route)) ->
    exists route,
      route ∈ routes
      /\ register routes mx
         = Panic ("http: multiple registrations for " +:+ Pattern route).
Proof.
  induction routes as [|r rs IH]; intros mx Hdup.
  - destruct Hdup as [Hdup|(r & Hr & _)].
    + destruct Hdup. constructor.
    + by apply elem_of_nil in Hr.
  - simpl. destruct (mux.m mx !! Pattern r) as [e|] eqn:Hm.
    + exists r. split; [left|].
      unfold mbind, result_bind. by rewrite Handle_registered.
    + rewrite Handle_fresh by done. unfold mbind, result_bind.
      destruct (IH {| mux.m := <[Pattern r :=
                                  {| mux.h := r; mux.pattern := Pattern r |}]>
                                 (mux.m mx);
                      mux.es := mux.es mx |}) as (r' & Hr' & Hpanic).
      * simpl. destruct Hdup as [Hdup|(r0 & Hr0 & Hsome)].
        -- rewrite fmap_cons, NoDup_cons in Hdup.
           destruct (decide (Pattern r ∈ Pattern <$> rs)) as [Hin|Hin].
           ++ right. apply list_elem_of_fmap in Hin as (r0 & Heq & Hr0).
              exists r0. split; [done|].
              rewrite <- Heq, lookup_insert_eq. eauto.
           ++ left. tauto.
        -- right. apply elem_of_cons in Hr0 as [->|Hr0].
           ++ rewrite Hm in Hsome. by destruct Hsome.
           ++ exists r0. split; [done|].
              rewrite lookup_insert_is_Some. destruct (decide (Pattern r = Pattern r0)); auto.
      * exists r'. split; [by right|done].
Qed.

(** C3.  When two of the routes have the same pattern, [NewServeMux]
    does not return: the second registration of the pattern panics
    inside [Handle].  No route table exists for such a collection, so no
    request is ever dispatched on one, and [fx.New] fails while it
    builds the application, before any start hook has been registered
    or run.  (The panic is what the multiplexer does; the later
    registration does not replace the earlier one.) *)
Theorem duplicate_pattern_fails_at_construction (routes : list Route) :
  ~ NoDup (Pattern <$> routes) ->
  (exists route,
     route ∈ routes
     /\ NewServeMux routes
        = Panic ("http: multiple registrations for " +:+ Pattern route))
  /\ (forall mx, NewServeMux routes <> Ok mx)
  /\ (forall group,
        fst (get_routes group empty_container) = routes ->
        exists msg, New_with group = Panic msg).
Proof.
  intros Hdup.
  destruct (register_duplicate routes mux.NewServeMux (or_introl Hdup))
    as (route & Hin & Hpanic).
  split; [by exists route|]. split.
  - intros mx. unfold NewServeMux. by rewrite Hpanic.
  - intros group Hgroup. eexists.
    unfold New_with, get_Server, get_ServeMux, mbind, result_bind. simpl.
    simpl in Hgroup. rewrite Hgroup.
    unfold NewServeMux. rewrite Hpanic. reflexivity.
Qed.

Lemma duplicate_pattern_fails_at_construction_witness :
  (exists route,
     route ∈ [EchoRoute (NewEchoHandler zap.NewExample);
              HelloRoute (NewHelloHandler zap.NewExample);
              EchoRoute (NewEchoHandler {| zap.LoggerName := "second" |})]
     /\ NewServeMux [EchoRoute (NewEchoHandler zap.NewExample);
                    HelloRoute (NewHelloHandler zap.NewExample);
                    EchoRoute (NewEchoHandler {| zap.LoggerName := "second" |})]
        = Panic ("http: multiple registrations for " +:+ Pattern route))
  /\ (forall mx,
        NewServeMux [EchoRoute (NewEchoHandler zap.NewExample);
                     HelloRoute (NewHelloHandler zap.NewExample);
                     EchoRoute (NewEchoHandler {| zap.LoggerName := "second" |})]
        <> Ok mx)
  /\ (forall group,
        fst (get_routes group empty_container)
        = [EchoRoute (NewEchoHandler zap.NewExample);
           HelloRoute (NewHelloHandler zap.NewExample);
           EchoRoute (NewEchoHandler {| zap.LoggerName := "second" |})] ->
        exists msg, New_with group = Panic msg).
Proof.
  apply duplicate_pattern_fails_at_construction.
  simpl. rewrite NoDup_cons. intros [Hnotin _]. apply Hnotin.
  right. left.
Defined.

(** The program's own routes, for comparison: a table is built. *)
Example NewServeMux_main_routes :
  exists mx,
    NewServeMux (fst (get_routes main_routes empty_container)) = Ok mx.
Proof. eexists. vm_compute. reflexivity. Qed.

(** C3 as stated fails: with the echo handler registered twice the
    outcome is determined, and it is not a table in which the later
    registration serves the pattern: there is no table at all. *)
Lemma duplicate_pattern_is_not_last_wins :
  NewServeMux [EchoRoute (NewEchoHandler zap.NewExample);
               EchoRoute (NewEchoHandler {| zap.LoggerName := "second" |})]
  = Panic "http: multiple registrations for /echo"
  /\ ~ (exists mx,
          NewServeMux
            [EchoRoute (NewEchoHandler zap.NewExample);
             EchoRoute (NewEchoHandler {| zap.LoggerName := "second" |})]
          = Ok mx
          /\ mux.Handler "/echo" mx
             = mux.Serve
                 {| mux.h := EchoRoute
                               (NewEchoHandler {| zap.LoggerName := "second" |});
                    mux.pattern := "/echo" |}).
Proof.
  assert (NewServeMux
            [EchoRoute (NewEchoHandler zap.NewExample);
             EchoRoute (NewEchoHandler {| zap.LoggerName := "second" |})]
          = Panic "http: multiple registrations for /echo") as Hpanic
    by (vm_compute; reflexivity).
  split; [exact Hpanic|].
  intros (mx & Hok & _). rewrite Hpanic in Hok. discriminate Hok.
Qed.

(** ** Dispatch *)

Lemma ends_in_slash_append (p : string) : mux.ends_in_slash (p +:+ "/") = true.
Proof.
  unfold mux.ends_in_slash.
  assert (last (String.list_ascii_of_string (p +:+ "/")) = Some "/"%char)
    as ->; [|done].
  induction p as [|a p IH]; [done|].
  simpl. destruct (String.list_ascii_of_string (p +:+ "/")); [done|].
  exact IH.
Qed.

Lemma append_slash_not_Pattern (p : string) route : p +:+ "/" <> Pattern route.
Proof.
  intros Heq. pose proof (ends_in_slash_append p) as Hs.
  rewrite Heq, Pattern_no_slash in Hs. discriminate Hs.
Qed.

(** The table [NewServeMux] builds from the program's two routes, in
    either order, holds the two patterns and no subtree pattern. *)
Lemma NewServeMux_two (e : EchoHandler) (h : HelloHandler) routes :
  routes ≡ₚ [EchoRoute e; HelloRoute h] ->
  exists mx,
    NewServeMux routes = Ok mx
    /\ mux.es mx = []
    /\ forall p,
         mux.m mx !! p =
           if decide (p = "/echo")
           then Some {| mux.h := EchoRoute e; mux.pattern := "/echo" |}
           else if decide (p = "/hello")
           then Some {| mux.h := HelloRoute h; mux.pattern := "/hello" |}
           else None.
Proof.
  intros Hperm.
  assert (routes = [EchoRoute e; HelloRoute h]
          \/ routes = [HelloRoute h; EchoRoute e]) as [-> | ->].
  { symmetry in Hperm. apply Permutation_length_2_inv in Hperm.
    destruct Hperm; auto. }
  - unfold NewServeMux. rewrite register_cons by apply lookup_empty.
    rewrite register_cons by (simpl; by rewrite lookup_insert_ne).
    eexists. split; [reflexivity|]. split; [done|]. intros p. simpl.
    repeat case_decide; subst; by simplify_map_eq.
  - unfold NewServeMux. rewrite register_cons by apply lookup_empty.
    rewrite register_cons by (simpl; by rewrite lookup_insert_ne).
    eexists. split; [reflexivity|]. split; [done|]. intros p. simpl.
    repeat case_decide; subst; by simplify_map_eq.
Qed.

Lemma cleanPath_Pattern route : mux.cleanPath (Pattern route) = Pattern route.
Proof. by destruct route. Qed.

Lemma Pattern_not_star route : Pattern route <> "*".
Proof. by destruct route. Qed.

Lemma cleanPath_not_star (p : string) : mux.cleanPath p = p -> p <> "*".
Proof. intros Hclean ->. discriminate Hclean. Qed.




(** ** The lifecycle hooks *)

(** C7.  The server [NewHTTPServer] builds has the address ":8080", and
    its start hook listens on that address once.  When the address
    cannot be bound the hook returns the error of [net.Listen] and does
    nothing else: no log entry, no goroutine, no second attempt; the
    lifecycle's start fails with that error.  When it can, the hook logs
    the address, spawns the goroutine that serves on the listener and
    returns nil; the goroutine has not run when the hook returns. *)
Theorem start_hook_binds_once
    (lc : fx.Lifecycle) (mx : mux.ServeMux) (log : zap.Logger)
    (ctx : Context) (w : World) :
  srv w = fst (NewHTTPServer lc mx log) ->
  Addr (srv w) = ":8080"
  /\ snd (NewHTTPServer lc mx log)
     = lc ++ [ {| fx.OnStart := OnStart log; fx.OnStop := OnStop |} ]
  /\ (":8080" ∈ bound w ->
      OnStart log ctx w
      = (Some EADDRINUSE,
         {| srv := srv w; bound := bound w;
            listens := listens w ++ [("tcp", ":8080")];
            zlog := zlog w; goroutines := goroutines w;
            responses := responses w |})
      /\ fst (fx.Start (snd (NewHTTPServer [] mx log)) ctx w)
         = Some EADDRINUSE)
  /\ (":8080" ∉ bound w ->
      OnStart log ctx w
      = (None,
         {| srv := srv w; bound := {[":8080"]} ∪ bound w;
            listens := listens w ++ [("tcp", ":8080")];
            zlog := zlog w ++ [entry zap.InfoLevel log
                                 "Starting HTTP server at"
                                 [zap.String "addr" ":8080"]];
            goroutines := goroutines w ++ [Serve_task {| laddr := ":8080" |}];
            responses := responses w |})).
Proof.
  intros Hsrv. simpl in Hsrv.
  assert (Addr (srv w) = ":8080") as Haddr by (by rewrite Hsrv).
  split; [done|]. split; [done|].
  unfold fx.Start, NewHTTPServer, fx.Append, OnStart, net_Listen. simpl.
  rewrite Haddr. split; intros Hb.
  - rewrite decide_True by done. split; reflexivity.
  - rewrite decide_False by done. unfold go, Info, zap.write. simpl.
    by rewrite Haddr.
Qed.

Lemma start_hook_binds_once_witness :
  OnStart zap.NewExample {| deadline := 15 |}
    (boot (fst (NewHTTPServer [] mux.NewServeMux zap.NewExample)) {[":8080"]})
  = (Some EADDRINUSE,
     {| srv := fst (NewHTTPServer [] mux.NewServeMux zap.NewExample);
        bound := {[":8080"]};
        listens := [] ++ [("tcp", ":8080")];
        zlog := []; goroutines := []; responses := [] |})
  /\ OnStart zap.NewExample {| deadline := 15 |}
       (boot (fst (NewHTTPServer [] mux.NewServeMux zap.NewExample)) ∅)
     = (None,
        {| srv := fst (NewHTTPServer [] mux.NewServeMux zap.NewExample);
           bound := {[":8080"]} ∪ ∅;
           listens := [] ++ [("tcp", ":8080")];
           zlog := [] ++ [entry zap.InfoLevel zap.NewExample
                            "Starting HTTP server at"
                            [zap.String "addr" ":8080"]];
           goroutines := [] ++ [Serve_task {| laddr := ":8080" |}];
           responses := [] |}).
Proof.
  split.
  - refine (proj1 (proj1 (proj2 (proj2 (start_hook_binds_once []
              mux.NewServeMux zap.NewExample {| deadline := 15 |}
              (boot (fst (NewHTTPServer [] mux.NewServeMux zap.NewExample))
                 {[":8080"]}) _))) _)).
    + reflexivity.
    + simpl. set_solver.
  - refine (proj2 (proj2 (proj2 (start_hook_binds_once []
              mux.NewServeMux zap.NewExample {| deadline := 15 |}
              (boot (fst (NewHTTPServer [] mux.NewServeMux zap.NewExample))
                 ∅) _))) _).
    + reflexivity.
    + simpl. set_solver.
Defined.

Lemma frame_refl w : frame w w.
Proof. by repeat split. Qed.

Lemma frame_trans w1 w2 w3 : frame w1 w2 -> frame w2 w3 -> frame w1 w3.
Proof.
  unfold frame. intros (?&?&?&?&?&?&?) (?&?&?&?&?&?&?).
  repeat split; congruence.
Qed.

Lemma set_conns_frame cs w : frame w (set_conns cs w).
Proof. by repeat split. Qed.

Lemma respond_frame r b room w :
  frame w (snd (respond r b room w))
  /\ srv (snd (respond r b room w)) = srv w.
Proof.
  unfold respond. destruct (ServeMux_ServeHTTP _ _ _) as [u x].
  by repeat split.
Qed.

Lemma tick_conns_frame cs :
  forall w,
    frame w (snd (tick_conns cs w))
    /\ srv (snd (tick_conns cs w)) = srv w.
Proof.
  induction cs as [|[n q] cs IH]; intros w; simpl.
  - split; [apply frame_refl|done].
  - destruct n as [|n].
    + destruct q as [[[r b] room]|].
      * destruct (respond_frame r b room w) as [Hf Hs].
        destruct (respond r b room w) as [keep w1]. simpl in *.
        destruct (IH w1) as [Hf' Hs'].
        destruct (tick_conns cs w1) as [cs' w']. simpl in *.
        split; [by apply (frame_trans w w1 w')|congruence].
      * specialize (IH w). by destruct (tick_conns cs w) as [cs' w'].
    + specialize (IH w). by destruct (tick_conns cs w) as [cs' w'].
Qed.

Lemma tick_frame w : frame w (tick w).
Proof.
  unfold tick. destruct (tick_conns_frame (conns (srv w)) w) as [Hf _].
  destruct (tick_conns (conns (srv w)) w) as [cs w']. simpl in Hf.
  apply (frame_trans w w'); [done|apply set_conns_frame].
Qed.

Lemma drain_frame ticks : forall w, frame w (snd (drain ticks w)).
Proof.
  induction ticks as [|ticks IH]; intros w; simpl;
    destruct (filter _ (conns (srv w))) as [|c cs]; simpl;
    try apply set_conns_frame.
  eapply frame_trans; [|apply IH].
  eapply frame_trans; [|apply tick_frame]. apply set_conns_frame.
Qed.

Lemma drain_complete ticks :
  forall w w', drain ticks w = (None, w') -> conns (srv w') = [].
Proof.
  induction ticks as [|ticks IH]; intros w w'; simpl;
    destruct (filter _ (conns (srv w))) as [|c cs]; simpl;
    try (by intros [= <-]); try done.
  apply IH.
Qed.

Lemma drain_no_conns ticks w : conns (srv w) = [] -> drain ticks w = (None, w).
Proof.
  destruct w as [[a hd ls cs sd] b l z g r]. simpl. intros ->.
  by destruct ticks.
Qed.

(** A shutdown that returns nil leaves the server stopped. *)
Lemma OnStop_nil_stopped ctx w w' : OnStop ctx w = (None, w') -> stopped w'.
Proof.
  unfold OnStop, Server_Shutdown. intros Hdrain.
  match type of Hdrain with
  | drain ?t ?x = _ => pose proof (drain_frame t x) as Hf
  end.
  rewrite Hdrain in Hf. simpl in Hf. destruct Hf as (_ & _ & Hln & Hshut & _).
  unfold stopped. rewrite Hln, Hshut.
  repeat split. by apply (drain_complete _ _ _ Hdrain).
Qed.

Lemma OnStop_nil_stopped_snd ctx w :
  fst (OnStop ctx w) = None -> stopped (snd (OnStop ctx w)).
Proof.
  destruct (OnStop ctx w) as [err w'] eqn:Hstop. simpl. intros ->.
  by apply (OnStop_nil_stopped ctx w).
Qed.

(** C8.  The stop hook on a server that is already stopped returns nil
    and changes nothing, whatever the context. *)
Theorem stop_hook_on_stopped_server (ctx : Context) (w : World) :
  stopped w -> OnStop ctx w = (None, w).
Proof.
  intros (Hshut & Hln & Hcs). unfold OnStop, Server_Shutdown.
  rewrite Hln. simpl.
  destruct w as [[a hd ls cs sd] b l z g r]. simpl in *. subst.
  by apply drain_no_conns.
Qed.

Lemma stop_hook_on_stopped_server_witness :
  OnStop {| deadline := 0 |}
    (snd (OnStop {| deadline := 3 |}
            (add_conn 2
               (snd (Server_Serve {| laddr := ":8080" |}
                       (boot (fst (NewHTTPServer [] mux.NewServeMux
                                     zap.NewExample)) {[":8080"]}))))))
  = (None,
     snd (OnStop {| deadline := 3 |}
            (add_conn 2
               (snd (Server_Serve {| laddr := ":8080" |}
                       (boot (fst (NewHTTPServer [] mux.NewServeMux
                                     zap.NewExample)) {[":8080"]})))))).
Proof.
  apply stop_hook_on_stopped_server.
  apply OnStop_nil_stopped_snd. reflexivity.
Defined.

(** After a stop that ran out of time the server is not stopped: a
    connection is still open, and a further stop waits for it again. *)
Example stop_after_timeout :
  let w1 := snd (OnStop {| deadline := 1 |}
                   (add_conn 5
                      (snd (Server_Serve {| laddr := ":8080" |}
                              (boot (fst (NewHTTPServer [] mux.NewServeMux
                                            zap.NewExample)) {[":8080"]}))))) in
  conns (srv w1) = [ {| work := 4; inflight := None |} ]
  /\ fst (OnStop {| deadline := 1 |} w1) = Some DeadlineExceeded
  /\ fst (OnStop {| deadline := 4 |} w1) = None.
Proof. repeat split. Qed.

(** ** The route table while the application runs *)

Lemma foldr_Close_srv lns w : srv (foldr Listener_Close w lns) = srv w.
Proof. induction lns as [|ln lns IH]; simpl; [done|exact IH]. Qed.

Lemma OnStart_Handler log ctx w :
  Handler (srv (snd (OnStart log ctx w))) = Handler (srv w).
Proof.
  unfold OnStart, net_Listen.
  by destruct (decide (Addr (srv w) ∈ bound w)).
Qed.

Lemma OnStop_Handler ctx w :
  Handler (srv (snd (OnStop ctx w))) = Handler (srv w).
Proof.
  unfold OnStop, Server_Shutdown.
  destruct (drain_frame (deadline ctx)
              (with_srv (fun s => {| Addr := Addr s; Handler := Handler s;
                                     listeners := []; conns := conns s;
                                     inShutdown := true |})
                 (foldr Listener_Close w (listeners (srv w)))))
    as (_ & -> & _).
  simpl. by rewrite foldr_Close_srv.
Qed.

Lemma hook_keeps_table log :
  keeps_table {| fx.OnStart := OnStart log; fx.OnStop := OnStop |}.
Proof.
  intros ctx w. split; [apply OnStart_Handler|apply OnStop_Handler].
Qed.

Lemma Start_Handler lc ctx :
  Forall keeps_table lc ->
  forall w, Handler (srv (snd (fx.Start lc ctx w))) = Handler (srv w).
Proof.
  induction 1 as [|hk lc Hhk _ IH]; intros w; simpl; [done|].
  destruct (Hhk ctx w) as [Hstart _].
  destruct (fx.OnStart hk ctx w) as [[e|] w']; simpl in *; [done|].
  by rewrite IH.
Qed.

Lemma Stop_Handler lc ctx :
  Forall keeps_table lc ->
  forall w, Handler (srv (snd (fx.Stop lc ctx w))) = Handler (srv w).
Proof.
  induction 1 as [|hk lc Hhk _ IH]; intros w; simpl; [done|].
  specialize (IH w). destruct (fx.Stop lc ctx w) as [e1 w1]. simpl in IH.
  destruct (Hhk ctx w1) as [_ Hstop].
  destruct (fx.OnStop hk ctx w1) as [e2 w2]. simpl in *. congruence.
Qed.

Lemma schedule_Handler w : Handler (srv (schedule w)) = Handler (srv w).
Proof.
  unfold schedule, Server_Serve.
  destruct (goroutines w) as [|[ln] ts]; [done|]. simpl.
  by destruct (inShutdown (srv w)).
Qed.

Lemma answer_Handler r b room w :
  Handler (srv (answer r b room w)) = Handler (srv w).
Proof.
  unfold answer. destruct (respond_frame r b room w) as [_ Hs].
  destruct (respond r b room w) as [[|] w']; simpl in *; by rewrite Hs.
Qed.

Lemma step_Handler lc w o :
  Forall keeps_table lc ->
  Handler (srv (step lc w o)) = Handler (srv w).
Proof.
  intros Hlc. destruct o as [ctx|ctx| |r b room|work|work r b room|]; simpl.
  - by apply Start_Handler.
  - by apply Stop_Handler.
  - apply schedule_Handler.
  - destruct (accepting w); [apply answer_Handler|done].
  - by destruct (accepting w).
  - by destruct (accepting w).
  - by destruct (tick_frame w) as (_ & -> & _).
Qed.

Lemma run_Handler lc ops :
  Forall keeps_table lc ->
  forall w, Handler (srv (run lc w ops)) = Handler (srv w).
Proof.
  intros Hlc. unfold run.
  induction ops as [|o ops IH]; intros w; simpl; [done|].
  by rewrite IH, step_Handler.
Qed.

(** What [fx.New] builds from main.go. *)
Lemma New_builds :
  exists mx,
    NewServeMux [EchoRoute (NewEchoHandler zap.NewExample);
                 HelloRoute (NewHelloHandler zap.NewExample)] = Ok mx
    /\ New = Ok {| c_log := Some zap.NewExample;
                   c_routes := Some [EchoRoute (NewEchoHandler zap.NewExample);
                                     HelloRoute (NewHelloHandler zap.NewExample)];
                   c_mux := Some mx;
                   c_srv := Some (fst (NewHTTPServer [] mx zap.NewExample));
                   c_lc := snd (NewHTTPServer [] mx zap.NewExample);
                   calls := ["zap.NewExample"; "NewEchoHandler";
                             "NewHelloHandler"; "NewServeMux";
                             "NewHTTPServer"] |}.
Proof.
  destruct (NewServeMux_two (NewEchoHandler zap.NewExample)
              (NewHelloHandler zap.NewExample) _ (reflexivity _))
    as (mx & Hok & _).
  exists mx. split; [done|].
  unfold New, New_with, get_Server, get_ServeMux, get_routes, get_Logger,
    main_routes, AsRoute, as_Route, mbind, result_bind. simpl.
  unfold Echo_implements, Hello_implements. rewrite Hok. reflexivity.
Qed.

(** C9.  [fx.New] runs [NewServeMux] once, before [NewHTTPServer], and
    keeps its result: asking the container for the table again returns
    the same table without running the constructor.  The server is built
    around that table and is not accepting yet.  Whatever happens
    afterwards (start and stop hooks, goroutines being scheduled,
    requests being answered by the handlers, connections staying busy),
    in any order and any number of times, the server's table is the one
    [NewServeMux] returned. *)
Theorem route_table_built_once_then_fixed :
  exists c mx s,
    New = Ok c
    /\ NewServeMux (fst (get_routes main_routes empty_container)) = Ok mx
    /\ c_mux c = Some mx
    /\ c_srv c = Some s
    /\ Handler s = mx
    /\ calls c = ["zap.NewExample"; "NewEchoHandler"; "NewHelloHandler";
                  "NewServeMux"; "NewHTTPServer"]
    /\ length (filter (fun name => name = "NewServeMux") (calls c)) = 1
    /\ get_ServeMux main_routes c = Ok (mx, c)
    /\ (forall taken, accepting (boot s taken) = false)
    /\ (forall taken ops,
          Handler (srv (run (c_lc c) (boot s taken) ops)) = mx).
Proof.
  destruct New_builds as (mx & Hok & Hnew).
  eexists _, mx, _. split; [exact Hnew|]. simpl.
  repeat split; try done.
  intros taken ops. rewrite run_Handler; [done|].
  simpl. constructor; [apply hook_keeps_table|constructor].
Qed.


(** * Further properties of the handlers *)

Lemma Copy_loop_breaks src B e rest :
  Breaks src B e rest ->
  forall dst n, http.accepts dst (length B) ->
  exists dst',
    Copy_loop src dst n = ((n + length B, Some e), (dst', rest))
    /\ http.body dst' = http.body dst ++ B
    /\ (http.status dst' = http.status dst
        \/ http.status dst' = Some (default http.StatusOK (http.status dst))).
Proof.
  induction 1 as [p e rest Hne|p r B e rest _ IH]; intros dst n Hacc; simpl.
  - destruct (decide (0 < length p)) as [Hp|Hp].
    + destruct (Write_accepted p dst (length p) Hacc (le_n _))
        as (w' & -> & Hb & Hs & _). simpl.
      rewrite decide_True by done. rewrite decide_False by done.
      exists w'. auto.
    + assert (p = []) as -> by (destruct p; simpl in *; [done|lia]).
      simpl. rewrite decide_False by done.
      exists dst. rewrite Nat.add_0_r, app_nil_r. auto.
  - rewrite length_app in Hacc.
    destruct (decide (0 < length p)) as [Hp|Hp].
    + destruct (Write_accepted p dst _ Hacc (Nat.le_add_r _ _))
        as (w' & -> & Hb & Hs & _ & Hacc'). simpl.
      rewrite decide_True by done.
      replace (length p + length B - length p) with (length B) in Hacc' by lia.
      destruct (IH w' (n + length p) Hacc') as (w'' & -> & Hb' & Hs').
      exists w''. rewrite length_app, Nat.add_assoc.
      split; [done|]. split; [by rewrite Hb', Hb, <- app_assoc|].
      destruct Hs' as [->| ->]; rewrite Hs; auto.
    + assert (p = []) as -> by (destruct p; simpl in *; [done|lia]).
      simpl in *. rewrite Nat.add_0_r.
      destruct (IH dst n Hacc) as (w'' & -> & Hb' & Hs').
      exists w''. auto.
Qed.

(** X1.  When a read of the request body fails after the body has
    handed out the bytes [B], and the client connection accepts [B], the
    echo handler has echoed exactly [B], logs one warning that carries
    the read error, sets no error status and does not read again. *)
Theorem echo_read_failure
    (h : EchoHandler) (r : http.Request) (src : io.Reader) (B : bytes)
    (e : error) (rest : io.Reader) (room : option nat)
    (log0 : list zap.Entry) :
  Breaks src B e rest ->
  http.accepts (http.fresh room) (length B) ->
  exists s',
    Echo.ServeHTTP h r (exchange room src log0) = (tt, s')
    /\ http.body (rw s') = B
    /\ sink s' = log0 ++ [entry zap.WarnLevel (echo_log h)
                            "Failed to handle request" [zap.Error e]]
    /\ rbody s' = rest
    /\ (http.status (rw s') = None
        \/ http.status (rw s') = Some http.StatusOK).
Proof.
  intros HB Hacc.
  unfold Echo.ServeHTTP, exchange, mbind, M_bind, io_Copy. simpl.
  destruct (Copy_loop_breaks src B e rest HB (http.fresh room) 0 Hacc)
    as (w' & -> & Hb & Hs). simpl in *.
  eexists. split; [reflexivity|]. simpl. auto.
Qed.

Lemma echo_read_failure_witness :
  exists s',
    Echo.ServeHTTP (NewEchoHandler zap.NewExample) (POST "/echo")
      (exchange None
         [(bytes_of "wor", None); (bytes_of "l", Some (Errno "unexpected EOF"));
          (bytes_of "d", None)] []) = (tt, s')
    /\ http.body (rw s') = bytes_of "wor" ++ bytes_of "l"
    /\ sink s' = [] ++ [entry zap.WarnLevel
                          (echo_log (NewEchoHandler zap.NewExample))
                          "Failed to handle request"
                          [zap.Error (Errno "unexpected EOF")]]
    /\ rbody s' = [(bytes_of "d", None)]
    /\ (http.status (rw s') = None
        \/ http.status (rw s') = Some http.StatusOK).
Proof.
  apply (echo_read_failure (NewEchoHandler zap.NewExample) (POST "/echo")).
  - apply Breaks_later, Breaks_here. discriminate.
  - exact I.
Defined.

Lemma Copy_loop_nothing src B :
  io.Delivers src B -> B = [] ->
  forall dst n, exists src', Copy_loop src dst n = ((n, None), (dst, src')).
Proof.
  induction 1 as [|p r|p r B _ IH]; intros HB dst n; simpl.
  - by exists [].
  - subst p. simpl. exists r. by rewrite Nat.add_0_r.
  - apply app_eq_nil in HB as [-> ->]. simpl. rewrite Nat.add_0_r.
    by apply IH.
Qed.

(** X2.  For a request body that is empty, however many empty reads it
    takes to find that out, the echo handler does not touch the response
    writer: no header, no status, no byte, and no log entry, even on a
    connection that would accept nothing. *)
Theorem echo_empty_body
    (h : EchoHandler) (r : http.Request) (src : io.Reader)
    (room : option nat) (log0 : list zap.Entry) :
  io.Delivers src [] ->
  rw (after (Echo.ServeHTTP h r) (exchange room src log0)) = http.fresh room
  /\ sink (after (Echo.ServeHTTP h r) (exchange room src log0)) = log0.
Proof.
  intros HB. unfold after, Echo.ServeHTTP, exchange, mbind, M_bind, io_Copy.
  simpl.
  destruct (Copy_loop_nothing src [] HB eq_refl (http.fresh room) 0)
    as [src' ->]. done.
Qed.

Lemma echo_empty_body_witness :
  rw (after (Echo.ServeHTTP (NewEchoHandler zap.NewExample) (POST "/echo"))
        (exchange (Some 0) (io.of_chunks [[]; []]) []))
  = http.fresh (Some 0)
  /\ sink (after (Echo.ServeHTTP (NewEchoHandler zap.NewExample)
                    (POST "/echo"))
             (exchange (Some 0) (io.of_chunks [[]; []]) [])) = [].
Proof.
  apply (echo_empty_body (NewEchoHandler zap.NewExample) (POST "/echo")
           (io.of_chunks [[]; []]) (Some 0) []).
  exact (Delivers_of_chunks [[]; []]).
Defined.

Lemma Write_Header p w : http.Header (snd (http.Write p w)) = http.Header w.
Proof.
  unfold http.Write, http.WriteHeader.
  destruct w as [[st|] hd bd [k|]]; simpl; try done;
    by destruct (decide (length p <= k)).
Qed.

Lemma data_of_cons p er (src : io.Reader) :
  data_of ((p, er) :: src) = p ++ data_of src.
Proof. reflexivity. Qed.

Lemma Copy_loop_prefix src :
  forall dst n,
  exists X,
    http.body (fst (snd (Copy_loop src dst n))) = http.body dst ++ X
    /\ X `prefix_of` data_of src
    /\ http.Header (fst (snd (Copy_loop src dst n))) = http.Header dst.
Proof.
  induction src as [|[p er] src IH]; intros dst n.
  - exists []. simpl. by rewrite app_nil_r.
  - rewrite data_of_cons. simpl.
    destruct (decide (0 < length p)) as [Hp|Hp].
    + destruct (decide (http.accepts dst (length p))) as [Hacc|Hacc].
      * destruct (Write_accepted p dst _ Hacc (le_n _))
          as (w' & -> & Hb & _ & Hh & _). simpl.
        rewrite decide_True by done.
        destruct er as [err|]; simpl.
        -- exists p. split; [done|]. split; [by apply prefix_app_r|done].
        -- destruct (IH w' (n + length p)) as (X & HX & Hpre & HhX).
           exists (p ++ X). rewrite HX, HhX, Hb, Hh, <- app_assoc.
           split; [done|]. split; [by apply prefix_app|done].
      * pose proof (Write_Header p dst) as Hh.
        destruct (Write_refused p dst Hacc)
          as (k & w' & _ & _ & Hw & Hb & _). rewrite Hw in Hh |- *. simpl in *.
        exists (take k p). split; [done|]. split; [|done].
        apply prefix_app_r. exists (drop k p). by rewrite take_drop.
    + simpl. destruct (decide (length p = 0)) as [Hlen|Hlen]; simpl.
      * apply length_zero_iff_nil in Hlen as ->. simpl.
        destruct er as [err|]; simpl.
        -- exists []. rewrite app_nil_r. split; [done|].
           split; [apply prefix_nil|done].
        -- apply IH.
      * exists []. rewrite app_nil_r. split; [done|].
        split; [apply prefix_nil|done].
Qed.

(** X3.  Whatever the request body and the client connection do, the
    response body the echo handler produces is a prefix of the bytes the
    request body holds, and the handler sets no response header. *)
Theorem echo_never_invents_bytes
    (h : EchoHandler) (r : http.Request) (src : io.Reader)
    (room : option nat) (log0 : list zap.Entry) :
  http.body (rw (after (Echo.ServeHTTP h r) (exchange room src log0)))
    `prefix_of` data_of src
  /\ http.Header (rw (after (Echo.ServeHTTP h r) (exchange room src log0)))
     = ∅.
Proof.
  unfold after, Echo.ServeHTTP, exchange, mbind, M_bind, io_Copy. simpl.
  destruct (Copy_loop_prefix src (http.fresh room) 0) as (X & Hb & Hpre & Hh).
  destruct (Copy_loop src (http.fresh room) 0) as [[n err] [w' r']].
  simpl in *. destruct err as [err|]; simpl; by rewrite Hb, Hh.
Qed.

(** X4.  When the request body delivers [B] and the client connection
    does not accept the greeting, the hello handler logs one entry at
    error level that carries the write error.  The response body is the
    part of the greeting the connection accepted, and the status stays
    the 200 the failed write had already implied: the 500 of
    [http.Error] comes after the header and is ignored, and its error
    line does not get through. *)
Theorem hello_write_failure
    (h : HelloHandler) (r : http.Request) (src : io.Reader) (B : bytes)
    (room : option nat) (log0 : list zap.Entry) :
  io.Delivers src B ->
  ~ http.accepts (http.fresh room) (length (greeting B)) ->
  exists s',
    Hello.ServeHTTP h r (exchange room src log0) = (tt, s')
    /\ sink s' = log0 ++ [entry zap.ErrorLevel (hello_log h)
                            "Failed to write response" [zap.Error EPIPE]]
    /\ http.status (rw s') = Some 200
    /\ http.body (rw s') = http.clip room (greeting B)
    /\ length (http.body (rw s')) < length (greeting B).
Proof.
  intros HB Hacc.
  destruct (Hello_ServeHTTP_delivers h r src B room log0 HB)
    as (s' & Hrun & Hb & Hs & Hlog).
  rewrite decide_False in Hlog by done.
  exists s'. repeat split; try done.
  rewrite Hb. unfold http.accepts in Hacc.
  destruct room as [k|]; simpl in *; [|done].
  rewrite length_take. lia.
Qed.

Lemma hello_write_failure_witness :
  exists s',
    Hello.ServeHTTP (NewHelloHandler zap.NewExample) (POST "/hello")
      (exchange (Some 3) (io.of_chunks [bytes_of "world"]) []) = (tt, s')
    /\ sink s' = [] ++ [entry zap.ErrorLevel
                          (hello_log (NewHelloHandler zap.NewExample))
                          "Failed to write response" [zap.Error EPIPE]]
    /\ http.status (rw s') = Some 200
    /\ http.body (rw s') = http.clip (Some 3) (greeting (bytes_of "world"))
    /\ length (http.body (rw s')) < length (greeting (bytes_of "world")).
Proof.
  apply (hello_write_failure (NewHelloHandler zap.NewExample) (POST "/hello")
           (io.of_chunks [bytes_of "world"]) (bytes_of "world") (Some 3) []).
  - exact (Delivers_of_chunks [bytes_of "world"]).
  - unfold http.accepts. simpl. lia.
Defined.

(** X5.  On every input the hello handler answers with an explicit
    status: 500 when [io.ReadAll] reported an error and 200 otherwise,
    never an unset one.  It logs at most one entry per request, at error
    level and under its own logger, and keeps the entries logged
    before. *)
Theorem hello_status_and_log
    (h : HelloHandler) (r : http.Request) (src : io.Reader)
    (room : option nat) (log0 : list zap.Entry) :
  exists s',
    Hello.ServeHTTP h r (exchange room src log0) = (tt, s')
    /\ http.status (rw s')
       = Some (match snd (fst (io.ReadAll src)) with
               | Some _ => http.StatusInternalServerError
               | None => http.StatusOK
               end)
    /\ (sink s' = log0
        \/ exists msg err,
             sink s' = log0 ++ [entry zap.ErrorLevel (hello_log h) msg
                                  [zap.Error err]]).
Proof.
  destruct (io.ReadAll src) as [[b' err] rest] eqn:Hread. simpl.
  pose proof (ReadAll_loop_inv src [] b' err rest Hread) as Hinv.
  destruct err as [e|].
  - destruct (Hello_ServeHTTP_fails h r src e rest room log0 Hinv)
      as (s' & Hrun & Hs & _ & Hlog & _).
    exists s'. split; [done|]. split; [done|]. right. eauto.
  - destruct Hinv as (B & HB & _).
    destruct (Hello_ServeHTTP_delivers h r src B room log0 HB)
      as (s' & Hrun & _ & Hs & Hlog).
    exists s'. split; [done|]. split; [done|].
    destruct (decide _); [by left|right; eauto].
Qed.

(** * Further properties of route registration *)

Lemma entries_fst routes : (entries routes).*1 = Pattern <$> routes.
Proof. unfold entries. rewrite <- list_fmap_compose. done. Qed.

Lemma register_table routes :
  forall mx,
    NoDup (Pattern <$> routes) ->
    (forall route, route ∈ routes -> mux.m mx !! Pattern route = None) ->
    register routes mx
    = Ok {| mux.m := list_to_map (entries routes) ∪ mux.m mx;
            mux.es := mux.es mx |}.
Proof.
  induction routes as [|r rs IH]; intros mx Hnd Hfresh.
  - simpl. rewrite (left_id_L ∅ (∪)). by destruct mx.
  - rewrite fmap_cons, NoDup_cons in Hnd. destruct Hnd as [Hnotin Hnd].
    rewrite register_cons by (apply Hfresh; left).
    rewrite IH; simpl; [|done|].
    + f_equal. f_equal. fold (entry_of r).
      rewrite <- insert_union_l. apply symmetry, insert_union_r.
      apply not_elem_of_list_to_map_1. by rewrite entries_fst.
    + intros route Hin. rewrite lookup_insert_ne.
      * apply Hfresh. by right.
      * intros Heq. apply Hnotin. rewrite Heq. by apply list_elem_of_fmap_2.
Qed.

Lemma NewServeMux_table routes :
  NoDup (Pattern <$> routes) -> NewServeMux routes = Ok (table routes).
Proof.
  intros Hnd. unfold NewServeMux.
  rewrite register_table; [|done|intros; apply lookup_empty].
  simpl. by rewrite (right_id_L ∅ (∪)).
Qed.

Lemma NewServeMux_Ok_NoDup routes mx :
  NewServeMux routes = Ok mx -> NoDup (Pattern <$> routes).
Proof.
  intros Hok. destruct (decide (NoDup (Pattern <$> routes))) as [|Hdup]; [done|].
  destruct (register_duplicate routes mux.NewServeMux (or_introl Hdup))
    as (route & _ & Hpanic).
  unfold NewServeMux in Hok. rewrite Hpanic in Hok. discriminate Hok.
Qed.

(** X6.  [NewServeMux] returns a table exactly when the patterns of the
    routes are pairwise distinct: no other input makes a registration
    panic, and the empty collection gives the empty table.  The table it
    returns holds one exact-match entry per route and no subtree
    entry. *)
Theorem NewServeMux_succeeds_iff_distinct (routes : list Route) :
  ((exists mx, NewServeMux routes = Ok mx) <-> NoDup (Pattern <$> routes))
  /\ (forall mx,
        NewServeMux routes = Ok mx ->
        mux.es mx = []
        /\ size (mux.m mx) = length routes
        /\ dom (mux.m mx) = list_to_set (Pattern <$> routes)).
Proof.
  split.
  - split.
    + intros [mx Hok]. by apply (NewServeMux_Ok_NoDup routes mx).
    + intros Hnd. exists (table routes). by apply NewServeMux_table.
  - intros mx Hok. pose proof (NewServeMux_Ok_NoDup routes mx Hok) as Hnd.
    rewrite NewServeMux_table in Hok by done. injection Hok as <-.
    simpl. split; [done|]. split.
    + rewrite map_size_list_to_map by (by rewrite entries_fst).
      unfold entries. by rewrite length_fmap.
    + rewrite dom_list_to_map_L. by rewrite entries_fst.
Qed.

Lemma NewServeMux_succeeds_iff_distinct_witness :
  mux.es (table [EchoRoute (NewEchoHandler zap.NewExample);
                 HelloRoute (NewHelloHandler zap.NewExample)]) = []
  /\ size (mux.m (table [EchoRoute (NewEchoHandler zap.NewExample);
                         HelloRoute (NewHelloHandler zap.NewExample)]))
     = length [EchoRoute (NewEchoHandler zap.NewExample);
               HelloRoute (NewHelloHandler zap.NewExample)]
  /\ dom (mux.m (table [EchoRoute (NewEchoHandler zap.NewExample);
                        HelloRoute (NewHelloHandler zap.NewExample)]))
     = list_to_set (Pattern <$> [EchoRoute (NewEchoHandler zap.NewExample);
                                 HelloRoute (NewHelloHandler zap.NewExample)]).
Proof.
  apply (proj2 (NewServeMux_succeeds_iff_distinct
                  [EchoRoute (NewEchoHandler zap.NewExample);
                   HelloRoute (NewHelloHandler zap.NewExample)])).
  vm_compute. reflexivity.
Defined.

Lemma table_lookup routes route :
  NoDup (Pattern <$> routes) -> route ∈ routes ->
  mux.m (table routes) !! Pattern route = Some (entry_of route).
Proof.
  intros Hnd Hin. simpl. apply elem_of_list_to_map_1.
  - by rewrite entries_fst.
  - unfold entries.
    by apply (list_elem_of_fmap_2 (fun route => (Pattern route, entry_of route))).
Qed.

Lemma table_lookup_None routes path :
  path ∉ Pattern <$> routes -> mux.m (table routes) !! path = None.
Proof.
  intros Hnotin. simpl. apply not_elem_of_list_to_map_1.
  by rewrite entries_fst.
Qed.

Lemma table_no_redirect routes path :
  mux.shouldRedirect path (table routes) = false.
Proof.
  unfold mux.shouldRedirect.
  destruct (mux.m (table routes) !! path); [done|].
  destruct (decide (path = "")); [done|].
  rewrite table_lookup_None; [done|].
  intros Hin. apply list_elem_of_fmap in Hin as (route & Heq & _).
  by apply (append_slash_not_Pattern path route).
Qed.

Lemma table_handler_registered routes route :
  NoDup (Pattern <$> routes) -> route ∈ routes ->
  mux.handler (Pattern route) (table routes) = mux.Serve (entry_of route).
Proof.
  intros Hnd Hin. unfold mux.handler, mux.match_.
  by rewrite table_lookup.
Qed.

Lemma table_handler_unregistered routes path :
  path ∉ Pattern <$> routes ->
  mux.handler path (table routes) = mux.NotFound.
Proof.
  intros Hnotin. unfold mux.handler, mux.match_.
  by rewrite table_lookup_None.
Qed.

(** How the table [NewServeMux] returns dispatches a request whose path
    is in canonical form and is not "*". *)
Lemma table_dispatch_clean routes r :
  mux.cleanPath (http.Path r) = http.Path r ->
  ServeMux_ServeHTTP (table routes) r
  = match mux.handler (http.Path r) (table routes) with
    | mux.Serve e => ServeHTTP (mux.h e) r
    | mux.Redirect url => http_Redirect url
    | mux.NotFound => http_NotFound
    end.
Proof.
  intros Hclean. unfold ServeMux_ServeHTTP.
  rewrite decide_False by (by apply cleanPath_not_star).
  unfold mux.Handler, mux.Handler_CONNECT.
  rewrite !table_no_redirect, Hclean.
  rewrite (decide_True (P := http.Path r = http.Path r)) by done.
  by destruct (decide (http.Method r = "CONNECT")).
Qed.

(** X7.  Registration followed by lookup: in the table [NewServeMux]
    returns, the pattern of every registered route leads to that very
    route, and the multiplexer hands a request for that path to the
    route's own [ServeHTTP]. *)
Theorem registered_route_is_served
    (routes : list Route) (mx : mux.ServeMux) (route : Route) :
  NewServeMux routes = Ok mx ->
  route ∈ routes ->
  mux.Handler (Pattern route) mx
  = mux.Serve {| mux.h := route; mux.pattern := Pattern route |}
  /\ (forall r, http.Path r = Pattern route ->
        ServeMux_ServeHTTP mx r = ServeHTTP route r).
Proof.
  intros Hok Hin. pose proof (NewServeMux_Ok_NoDup routes mx Hok) as Hnd.
  rewrite NewServeMux_table in Hok by done. injection Hok as <-.
  split.
  - unfold mux.Handler.
    rewrite table_no_redirect, cleanPath_Pattern, decide_True by done.
    by apply table_handler_registered.
  - intros r Hr. rewrite table_dispatch_clean
      by (rewrite Hr; apply cleanPath_Pattern).
    by rewrite Hr, table_handler_registered.
Qed.

Lemma registered_route_is_served_witness :
  mux.Handler (Pattern (HelloRoute (NewHelloHandler zap.NewExample)))
    (table [HelloRoute (NewHelloHandler zap.NewExample)])
  = mux.Serve
      {| mux.h := HelloRoute (NewHelloHandler zap.NewExample);
         mux.pattern := Pattern (HelloRoute (NewHelloHandler zap.NewExample)) |}
  /\ (forall r,
        http.Path r = Pattern (HelloRoute (NewHelloHandler zap.NewExample)) ->
        ServeMux_ServeHTTP
          (table [HelloRoute (NewHelloHandler zap.NewExample)]) r
        = ServeHTTP (HelloRoute (NewHelloHandler zap.NewExample)) r).
Proof.
  apply (registered_route_is_served
           [HelloRoute (NewHelloHandler zap.NewExample)]).
  - vm_compute. reflexivity.
  - left.
Defined.

Lemma NotFound_response room b log0 :
  http.status (rw (after http_NotFound (exchange room b log0))) = Some 404
  /\ http.body (rw (after http_NotFound (exchange room b log0)))
     = http.clip room (line "404 page not found")
  /\ rbody (after http_NotFound (exchange room b log0)) = b
  /\ sink (after http_NotFound (exchange room b log0)) = log0.
Proof.
  unfold after, http_NotFound, http_Error, Fprintln, on_writer, exchange,
    mbind, M_bind, mret, M_ret.
  generalize (line "404 page not found") as msg. intros msg.
  unfold http.Write, http.WriteHeader, http.fresh. simpl.
  destruct room as [k|]; simpl; [|done].
  destruct (decide (length msg <= k)); simpl; [|done].
  by rewrite take_ge.
Qed.

(** X8.  In the table [NewServeMux] returns, a path in canonical form
    that is the pattern of none of the routes is not found: the request
    is answered with status 404 and the line "404 page not found", no
    route's handler runs, the request body is not read and nothing is
    logged.  With no routes at all this is the answer to every request
    with such a path. *)
Theorem unregistered_path_not_found
    (routes : list Route) (mx : mux.ServeMux) (r : http.Request)
    (room : option nat) (b : io.Reader) (log0 : list zap.Entry) :
  NewServeMux routes = Ok mx ->
  http.Path r ∉ Pattern <$> routes ->
  mux.cleanPath (http.Path r) = http.Path r ->
  mux.Handler (http.Path r) mx = mux.NotFound
  /\ http.status (rw (after (ServeMux_ServeHTTP mx r) (exchange room b log0)))
     = Some 404
  /\ http.body (rw (after (ServeMux_ServeHTTP mx r) (exchange room b log0)))
     = http.clip room (line "404 page not found")
  /\ rbody (after (ServeMux_ServeHTTP mx r) (exchange room b log0)) = b
  /\ sink (after (ServeMux_ServeHTTP mx r) (exchange room b log0)) = log0.
Proof.
  intros Hok Hnotin Hclean.
  pose proof (NewServeMux_Ok_NoDup routes mx Hok) as Hnd.
  rewrite NewServeMux_table in Hok by done. injection Hok as <-.
  split.
  - unfold mux.Handler.
    rewrite table_no_redirect, Hclean, decide_True by done.
    by apply table_handler_unregistered.
  - rewrite table_dispatch_clean by done.
    rewrite table_handler_unregistered by done.
    apply NotFound_response.
Qed.

Lemma unregistered_path_not_found_witness :
  mux.Handler (http.Path (GET "/hello"))
    (table [EchoRoute (NewEchoHandler zap.NewExample)]) = mux.NotFound
  /\ http.status
       (rw (after (ServeMux_ServeHTTP
                     (table [EchoRoute (NewEchoHandler zap.NewExample)])
                     (GET "/hello"))
              (exchange None [] []))) = Some 404
  /\ http.body
       (rw (after (ServeMux_ServeHTTP
                     (table [EchoRoute (NewEchoHandler zap.NewExample)])
                     (GET "/hello"))
              (exchange None [] [])))
     = http.clip None (line "404 page not found")
  /\ rbody (after (ServeMux_ServeHTTP
                     (table [EchoRoute (NewEchoHandler zap.NewExample)])
                     (GET "/hello"))
              (exchange None [] [])) = []
  /\ sink (after (ServeMux_ServeHTTP
                    (table [EchoRoute (NewEchoHandler zap.NewExample)])
                    (GET "/hello"))
             (exchange None [] [])) = [].
Proof.
  apply (unregistered_path_not_found
           [EchoRoute (NewEchoHandler zap.NewExample)]
           (table [EchoRoute (NewEchoHandler zap.NewExample)])
           (GET "/hello") None [] []).
  - vm_compute. reflexivity.
  - simpl. intros Hin. apply list_elem_of_singleton in Hin. discriminate Hin.
  - vm_compute. reflexivity.
Defined.

(** X9.  The order in which the routes are handed to [NewServeMux] does
    not matter: a rearrangement of a collection that gives a table gives
    the same table. *)
Theorem NewServeMux_order_irrelevant
    (routes routes' : list Route) (mx : mux.ServeMux) :
  NewServeMux routes = Ok mx ->
  routes ≡ₚ routes' ->
  NewServeMux routes' = Ok mx.
Proof.
  intros Hok Hperm. pose proof (NewServeMux_Ok_NoDup routes mx Hok) as Hnd.
  rewrite NewServeMux_table in Hok by done. injection Hok as <-.
  rewrite NewServeMux_table by (by rewrite <- Hperm).
  f_equal. unfold table. f_equal.
  apply symmetry, list_to_map_proper.
  - by rewrite entries_fst.
  - unfold entries. by rewrite Hperm.
Qed.

Lemma NewServeMux_order_irrelevant_witness :
  NewServeMux [HelloRoute (NewHelloHandler zap.NewExample);
               EchoRoute (NewEchoHandler zap.NewExample)]
  = Ok (table [EchoRoute (NewEchoHandler zap.NewExample);
               HelloRoute (NewHelloHandler zap.NewExample)]).
Proof.
  apply (NewServeMux_order_irrelevant
           [EchoRoute (NewEchoHandler zap.NewExample);
            HelloRoute (NewHelloHandler zap.NewExample)]).
  - vm_compute. reflexivity.
  - apply perm_swap.
Defined.

(** * Further properties of the lifecycle hooks *)



(** X10.  Starting twice does not work: after a start hook that
    returned nil, a second run of the hook fails with "address already
    in use", because the first listener holds the address.  The second
    run spawns no goroutine, logs nothing and leaves the server as it
    was. *)
Theorem second_start_fails
    (log : zap.Logger) (ctx1 ctx2 : Context) (w : World) :
  fst (OnStart log ctx1 w) = None ->
  fst (OnStart log ctx2 (snd (OnStart log ctx1 w))) = Some EADDRINUSE
  /\ goroutines (snd (OnStart log ctx2 (snd (OnStart log ctx1 w))))
     = goroutines (snd (OnStart log ctx1 w))
  /\ zlog (snd (OnStart log ctx2 (snd (OnStart log ctx1 w))))
     = zlog (snd (OnStart log ctx1 w))
  /\ srv (snd (OnStart log ctx2 (snd (OnStart log ctx1 w)))) = srv w.
Proof.
  unfold OnStart, net_Listen.
  destruct (decide (Addr (srv w) ∈ bound w)) as [Hin|Hin]; simpl; [done|].
  intros _. rewrite decide_True by set_solver. done.
Qed.

Lemma second_start_fails_witness :
  fst (OnStart zap.NewExample {| deadline := 15 |}
         (snd (OnStart zap.NewExample {| deadline := 15 |}
                 (boot (fst (NewHTTPServer [] mux.NewServeMux zap.NewExample))
                    ∅))))
  = Some EADDRINUSE.
Proof.
  refine (proj1 (second_start_fails zap.NewExample {| deadline := 15 |}
                   {| deadline := 15 |}
                   (boot (fst (NewHTTPServer [] mux.NewServeMux zap.NewExample))
                      ∅) _)).
  vm_compute. reflexivity.
Defined.

Lemma address_released (taken : gset string) (a : string) :
  a ∉ taken -> ({[a]} ∪ taken) ∖ {[a]} = taken.
Proof.
  intros Hfree. apply set_eq. intros x.
  rewrite elem_of_difference, elem_of_union, elem_of_singleton. split.
  - by intros [[->|Hx] Hne].
  - intros Hx. split; [by right|]. by intros ->.
Qed.

(** X11.  Start, then stop: with the address free, once the start hook
    has run and the spawned goroutine has been scheduled the server is
    accepting and holds the address.  A stop hook that finds no busy
    connection then returns nil, leaves the server stopped and gives the
    address back.  When the stop hook runs before the goroutine has been
    scheduled, the goroutine closes the listener itself once it runs:
    the address is given back all the same and the server never
    accepts. *)
Theorem start_then_stop_releases_address
    (mx : mux.ServeMux) (log : zap.Logger) (ctx1 ctx2 : Context)
    (taken : gset string) :
  ":8080" ∉ taken ->
  accepting (run (snd (NewHTTPServer [] mx log))
               (boot (fst (NewHTTPServer [] mx log)) taken)
               [Start ctx1; Schedule]) = true
  /\ bound (run (snd (NewHTTPServer [] mx log))
              (boot (fst (NewHTTPServer [] mx log)) taken)
              [Start ctx1; Schedule]) = {[":8080"]} ∪ taken
  /\ fst (OnStop ctx2 (run (snd (NewHTTPServer [] mx log))
                         (boot (fst (NewHTTPServer [] mx log)) taken)
                         [Start ctx1; Schedule])) = None
  /\ stopped (run (snd (NewHTTPServer [] mx log))
                (boot (fst (NewHTTPServer [] mx log)) taken)
                [Start ctx1; Schedule; Stop ctx2])
  /\ bound (run (snd (NewHTTPServer [] mx log))
              (boot (fst (NewHTTPServer [] mx log)) taken)
              [Start ctx1; Schedule; Stop ctx2]) = taken
  /\ accepting (run (snd (NewHTTPServer [] mx log))
                  (boot (fst (NewHTTPServer [] mx log)) taken)
                  [Start ctx1; Stop ctx2; Schedule]) = false
  /\ bound (run (snd (NewHTTPServer [] mx log))
              (boot (fst (NewHTTPServer [] mx log)) taken)
              [Start ctx1; Stop ctx2; Schedule]) = taken.
Proof.
  intros Hfree.
  unfold run, NewHTTPServer, fx.Append, boot, step, fx.Start, fx.Stop,
    OnStart, OnStop, Server_Shutdown, net_Listen, schedule, Server_Serve,
    accepting, stopped. simpl.
  rewrite decide_False by done. simpl.
  rewrite !drain_no_conns by done. simpl.
  repeat split; try done; by apply address_released.
Qed.

Lemma start_then_stop_releases_address_witness :
  bound (run (snd (NewHTTPServer [] mux.NewServeMux zap.NewExample))
           (boot (fst (NewHTTPServer [] mux.NewServeMux zap.NewExample))
              {[":9090"]})
           [Start {| deadline := 15 |}; Schedule; Stop {| deadline := 15 |}])
  = {[":9090"]}.
Proof.
  refine (proj1 (proj2 (proj2 (proj2 (proj2
            (start_then_stop_releases_address mux.NewServeMux zap.NewExample
               {| deadline := 15 |} {| deadline := 15 |} {[":9090"]} _)))))).
  intros Hin. apply elem_of_singleton in Hin. discriminate Hin.
Defined.












(** * The running server *)




(** A request that is in flight when a stop runs out of time is answered
    afterwards, although the server has stopped accepting. *)
Example in_flight_request_answered_after_timeout :
  let lc := snd (NewHTTPServer []
                   (table [HelloRoute (NewHelloHandler zap.NewExample)])
                   zap.NewExample) in
  let w := run lc
             (boot (fst (NewHTTPServer []
                           (table [HelloRoute (NewHelloHandler zap.NewExample)])
                           zap.NewExample)) ∅)
             [Start {| deadline := 15 |}; Schedule;
              InFlight 3 (POST "/hello") (io.of_chunks [bytes_of "world"]) None;
              Stop {| deadline := 1 |}] in
  responses w = []
  /\ accepting w = false
  /\ http.body <$> responses (run lc w [Tick; Tick; Tick])
     = [line "Hello, world"].
Proof. vm_compute. repeat split. Qed.
